(** * BabylonJS Shading Language (BSL): the node-builder facade

    A shallow embedding of the facade's factory functions.  Every function
    of the source allocates one or two blocks of the host engine with [new],
    assigns some of their properties, wires caller-supplied connection
    points with [connectTo] and returns a block or one of its connection
    points.  The host objects are mutable and shared by reference, so the
    embedding threads an explicit store through every call: the blocks
    allocated so far, addressed by their allocation index, and the wires made
    so far, in the order of the [connectTo] calls.

    The host engine (BabylonJS Node Material) is not part of the repository.
    Three of its behaviours decide what a block built by the facade ends up
    holding, and are part of the embedding: the target a block of each class
    is constructed with, the guard of the [target] setter, and the observer
    a transform block puts on its vector input.  The host also refuses (by
    throwing) to connect points of incompatible types or stages; the
    embedding describes the calls the host accepts. *)

From Stdlib Require Import Floats.
From stdpp Require Import gmap strings list fin_maps.

Open Scope string_scope.

(** ** Host enumerations and values *)

(** [NodeMaterialBlockTargets], the stage a block is declared for. *)
Inductive NodeMaterialBlockTargets :=
  | Vertex
  | Fragment
  | Neutral
  | VertexAndFragment.

(** The members of [NodeMaterialSystemValues] the facade refers to. *)
Inductive NodeMaterialSystemValues :=
  | World
  | View
  | ViewProjection
  | CameraPosition.

(** The member of [TrigonometryBlockOperations] the facade refers to. *)
Inductive TrigonometryBlockOperations :=
  | Fract.

(** A JavaScript [number] is an IEEE 754 binary64 value. *)
Abbreviation number := PrimFloat.float.

(** A host texture resource, known to the facade only by reference. *)
Record Texture := { texture_ref : nat }.

(** [Vector2 | Vector3 | Vector4], the literal vector types of the host. *)
Inductive BabylonVector :=
  | Vector2 (x y : number)
  | Vector3 (x y z : number)
  | Vector4 (x y z w : number).

(** The classes of host block the facade instantiates. *)
Inductive BlockClass :=
  | InputBlock
  | TextureBlock
  | TransformBlock
  | TrigonometryBlock
  | ScaleBlock
  | MultiplyBlock
  | VectorMergerBlock
  | VectorSplitterBlock
  | PerturbNormalBlock
  | PBRMetallicRoughnessBlock
  | FragmentOutputBlock
  | VertexOutputBlock.

(** What the facade stores in a property of a block. *)
Inductive Value :=
  | VTarget (t : NodeMaterialBlockTargets)
  | VBool (b : bool)
  | VNum (n : number)
  | VVec (v : BabylonVector)
  | VTexture (t : Texture)
  | VSystemValue (s : NodeMaterialSystemValues)
  | VAttribute (a : string)
  | VOperation (o : TrigonometryBlockOperations).

(** The bit mask of a target: Vertex = 1, Fragment = 2, Neutral = 4,
    VertexAndFragment = 3. *)
Definition target_bits (t : NodeMaterialBlockTargets) : N :=
  match t with
  | Vertex => 1
  | Fragment => 2
  | Neutral => 4
  | VertexAndFragment => 3
  end%N.

(** [(current & value) !== 0] *)
Definition overlaps (current value : NodeMaterialBlockTargets) : bool :=
  negb (N.land (target_bits current) (target_bits value) =? 0)%N.

(** The target a block has when its constructor returns.  A transform
    block is constructed neutral and set to the vertex stage by its own
    constructor. *)
Definition constructed_target (c : BlockClass) : NodeMaterialBlockTargets :=
  match c with
  | InputBlock => Vertex
  | TextureBlock => VertexAndFragment
  | TransformBlock => Vertex
  | TrigonometryBlock => Neutral
  | ScaleBlock => Neutral
  | MultiplyBlock => Neutral
  | VectorMergerBlock => Neutral
  | VectorSplitterBlock => Neutral
  | PerturbNormalBlock => Fragment
  | PBRMetallicRoughnessBlock => VertexAndFragment
  | FragmentOutputBlock => Fragment
  | VertexOutputBlock => Vertex
  end.

(** The target setter of the host: a value that overlaps the current target
    is ignored, any other value replaces it. *)
Definition target_after (current value : NodeMaterialBlockTargets)
  : NodeMaterialBlockTargets :=
  if overlaps current value then current else value.

(** ** Blocks, connection points and the graph *)

(** A block reference is the allocation index of the block. *)
Abbreviation BlockRef := nat.

(** A block: its class, the display name given to the constructor and its
    properties (a JavaScript object used as a map).  Under the key of a
    property the map holds the value last written to it, by the facade or by
    the host.  [target] is an accessor of the host: the key [target] holds
    the value last passed to its setter, and the key [_target] the field the
    setter guards and the getter reads. *)
Record Block := mkBlock {
  block_class : BlockClass;
  block_name : string;
  block_props : gmap string Value
}.

(** [NodeMaterialConnectionPoint]: a socket of a block, named after the
    getter of the block that yields it ([block.uv], [block.output], ...). *)
Record NodeMaterialConnectionPoint := mkPoint {
  owner : BlockRef;
  port : string
}.

(** A wire made by [source.connectTo(destination)]. *)
Abbreviation Wire := (NodeMaterialConnectionPoint * NodeMaterialConnectionPoint)%type.

Record Graph := mkGraph {
  blocks : list Block;
  wires : list Wire
}.

Definition empty_graph : Graph := mkGraph [] [].

(** ** The builder monad: host calls thread the graph *)

Definition Build (A : Type) : Type := Graph -> A * Graph.

Definition ret {A} (a : A) : Build A := fun g => (a, g).

Definition bind {A B} (m : Build A) (f : A -> Build B) : Build B :=
  fun g => let (a, g') := m g in f a g'.

Notation "'let*' x ':=' m 'in' k" := (bind m (fun x => k))
  (at level 10, x name, m at level 100, k at level 200).
Notation "'do' m 'then' k" := (bind m (fun _ => k))
  (at level 10, m at level 100, k at level 200).

(** The block a constructor returns: no property written yet, and the
    target of its class. *)
Definition fresh_block (c : BlockClass) (name : string) : Block :=
  mkBlock c name {[ "_target" := VTarget (constructed_target c) ]}.

(** [new C(name)]: the constructed block is appended to the store; the
    reference is its index. *)
Definition new (c : BlockClass) (name : string) : Build BlockRef :=
  fun g => (length (blocks g), mkGraph (blocks g ++ [fresh_block c name]) (wires g)).

Definition set_prop (key : string) (v : Value) (b : Block) : Block :=
  mkBlock (block_class b) (block_name b) (<[key := v]> (block_props b)).

(** The [target] setter on a block.  A texture block overrides the setter
    with an empty one; every other class keeps the guarded setter. *)
Definition host_set_target (t : NodeMaterialBlockTargets) (b : Block) : Block :=
  match block_class b with
  | TextureBlock => b
  | _ =>
      match block_props b !! "_target" with
      | Some (VTarget current) =>
          set_prop "_target" (VTarget (target_after current t)) b
      | _ => b
      end
  end.

(** One property write: the value is recorded under the key, and a write to
    [target] runs the setter. *)
Definition write (key : string) (v : Value) (b : Block) : Block :=
  match v with
  | VTarget t =>
      if String.eqb key "target" then host_set_target t (set_prop key v b)
      else set_prop key v b
  | _ => set_prop key v b
  end.

(** [block.key = v] on the referenced block. *)
Definition assign (b : BlockRef) (key : string) (v : Value) : Build unit :=
  fun g => (tt, mkGraph (alter (write key v) b (blocks g)) (wires g)).

(** Is the block an input block named normal or tangent? *)
Definition direction_input (source : option Block) : bool :=
  match source with
  | Some s =>
      match block_class s with
      | InputBlock =>
          String.eqb (block_name s) "normal" || String.eqb (block_name s) "tangent"
      | _ => false
      end
  | None => false
  end.

(** Does the block observe connections made to its input [q]?  Of the
    classes the facade instantiates only the transform block does, on its
    vector input. *)
Definition observes (d : Block) (q : string) : bool :=
  match block_class d with
  | TransformBlock => String.eqb q "vector"
  | _ => false
  end.

(** What the destination block does when its input [q] is connected to a
    point of the block [source]: a transform block whose vector input is fed
    by an input block named normal or tangent sets its [complementW] to 0. *)
Definition on_connection (source : option Block) (q : string) (d : Block) : Block :=
  if observes d q then
    mkBlock (block_class d) (block_name d)
            (if direction_input source
             then <["complementW" := VNum 0%float]> (block_props d)
             else block_props d)
  else d.

(** [source.connectTo(destination)] records one wire and notifies the
    destination block.  The points are taken to be ones the host accepts. *)
Definition connectTo (src dst : NodeMaterialConnectionPoint) : Build unit :=
  fun g =>
    (tt, mkGraph (alter (on_connection (blocks g !! owner src) (port dst))
                        (owner dst) (blocks g))
                 (wires g ++ [(src, dst)])).

(** [a?.connectTo(destination)] and [if (a) a.connectTo(destination)]:
    nothing happens on [null]. *)
Definition connectTo_opt (src : option NodeMaterialConnectionPoint)
    (dst : NodeMaterialConnectionPoint) : Build unit :=
  match src with
  | Some s => connectTo s dst
  | None => ret tt
  end.

(** [inputBlock.setAsSystemValue(v)] and [inputBlock.setAsAttribute(name)]
    are host methods; the embedding records which one was called, with its
    argument, and leaves every other property alone (neither touches the
    target of the block). *)
Definition setAsSystemValue (b : BlockRef) (v : NodeMaterialSystemValues) : Build unit :=
  assign b "systemValue" (VSystemValue v).

Definition setAsAttribute (b : BlockRef) (name : string) : Build unit :=
  assign b "attribute" (VAttribute name).

(** Observations on a graph. *)
Definition block_prop (g : Graph) (b : BlockRef) (key : string) : option Value :=
  blocks g !! b ≫= fun blk => block_props blk !! key.

(** The value last assigned to the target of the block. *)
Definition block_target (g : Graph) (b : BlockRef) : option Value :=
  block_prop g b "target".

(** The target the block reports.  A texture block computes it from what
    feeds its uv input, which the embedding leaves out: [None]. *)
Definition reported_target (g : Graph) (b : BlockRef)
  : option NodeMaterialBlockTargets :=
  blocks g !! b ≫= fun blk =>
    match block_class blk, block_props blk !! "_target" with
    | TextureBlock, _ => None
    | _, Some (VTarget t) => Some t
    | _, _ => None
    end.


Definition class_of (g : Graph) (b : BlockRef) : option BlockClass :=
  block_class <$> blocks g !! b.

(** ** The facade *)

(** The re-exported stage constants. *)
Module Stage.
Definition VERT := Vertex.
Definition FRAG := Fragment.
Definition VERT_AND_FRAG := VertexAndFragment.
Definition NEUTRAL := Neutral.
End Stage.

(** [Partial<TextureBlockProps>]: every field may be left out. *)
Record TextureBlockProps := mkTextureBlockProps {
  tex_convertToLinearSpace : option bool;
  tex_convertToGammaSpace : option bool;
  tex_disableLevelMultiplication : option bool
}.

(** [OutputFragColorProps]: both fields are required when the record is
    given. *)
Record OutputFragColorProps := mkOutputFragColorProps {
  out_convertToLinearSpace : bool;
  out_convertToGammaSpace : bool
}.

(** [props?.field ?? fallback] *)
Definition nullish {P A} (props : option P) (field : P -> option A) (fallback : A) : A :=
  match props with
  | Some p => match field p with Some v => v | None => fallback end
  | None => fallback
  end.

Module BSL.

Definition uniformCameraPosition : Build NodeMaterialConnectionPoint :=
  let* cameraPosition := new InputBlock "cameraPosition" in
  do assign cameraPosition "target" (VTarget VertexAndFragment) then
  do setAsSystemValue cameraPosition CameraPosition then
  ret (mkPoint cameraPosition "output").

Definition uniformView : Build NodeMaterialConnectionPoint :=
  let* view := new InputBlock "view" in
  do assign view "target" (VTarget VertexAndFragment) then
  do setAsSystemValue view View then
  ret (mkPoint view "output").

Definition uniformViewProjection : Build NodeMaterialConnectionPoint :=
  let* viewProjection := new InputBlock "ViewProjection" in
  do assign viewProjection "target" (VTarget VertexAndFragment) then
  do setAsSystemValue viewProjection ViewProjection then
  ret (mkPoint viewProjection "output").

Definition uniformWorld : Build NodeMaterialConnectionPoint :=
  let* world := new InputBlock "world" in
  do assign world "target" (VTarget VertexAndFragment) then
  do setAsSystemValue world World then
  ret (mkPoint world "output").

Definition vertexAttribute (name : string) : Build NodeMaterialConnectionPoint :=
  let* position := new InputBlock name in
  do assign position "target" (VTarget Vertex) then
  do setAsAttribute position name then
  ret (mkPoint position "output").

Definition float (value : number) : Build NodeMaterialConnectionPoint :=
  let* inputBlock := new InputBlock "float" in
  do assign inputBlock "target" (VTarget Stage.VERT_AND_FRAG) then
  do assign inputBlock "value" (VNum value) then
  ret (mkPoint inputBlock "output").

Definition constFloat (name : string) (value : number) : Build NodeMaterialConnectionPoint :=
  let* inputBlock := new InputBlock name in
  do assign inputBlock "target" (VTarget Stage.VERT_AND_FRAG) then
  do assign inputBlock "value" (VNum value) then
  do assign inputBlock "isConstant" (VBool true) then
  ret (mkPoint inputBlock "output").

Definition uniformFloat (name : string) (value : number) : Build NodeMaterialConnectionPoint :=
  let* inputBlock := new InputBlock name in
  do assign inputBlock "target" (VTarget Stage.VERT_AND_FRAG) then
  do assign inputBlock "value" (VNum value) then
  do assign inputBlock "matrixMode" (VNum 0%float) then
  ret (mkPoint inputBlock "output").

Definition sampleTexture (texture : Texture) (uv : NodeMaterialConnectionPoint)
    (props : option TextureBlockProps) : Build BlockRef :=
  let* textureBlock := new TextureBlock "texture" in
  do assign textureBlock "target" (VTarget VertexAndFragment) then
  do assign textureBlock "convertToGammaSpace"
       (VBool (nullish props tex_convertToGammaSpace false)) then
  do assign textureBlock "convertToLinearSpace"
       (VBool (nullish props tex_convertToLinearSpace false)) then
  do assign textureBlock "disableLevelMultiplication"
       (VBool (nullish props tex_disableLevelMultiplication false)) then
  do assign textureBlock "texture" (VTexture texture) then
  do connectTo uv (mkPoint textureBlock "uv") then
  ret textureBlock.

Definition transformPosition (transformMat4 positionVec3 : NodeMaterialConnectionPoint)
    (stage : NodeMaterialBlockTargets) : Build NodeMaterialConnectionPoint :=
  let* transformBlock := new TransformBlock "TransformPosition" in
  do assign transformBlock "target" (VTarget stage) then
  do assign transformBlock "complementZ" (VNum 0%float) then
  do assign transformBlock "complementW" (VNum 1%float) then
  do connectTo positionVec3 (mkPoint transformBlock "vector") then
  do connectTo transformMat4 (mkPoint transformBlock "transform") then
  ret (mkPoint transformBlock "output").

Definition transformDirection (transformMat4 directionVec3 : NodeMaterialConnectionPoint)
    (stage : NodeMaterialBlockTargets) : Build NodeMaterialConnectionPoint :=
  let* transformBlock := new TransformBlock "TransformDirection" in
  do assign transformBlock "target" (VTarget stage) then
  do assign transformBlock "complementZ" (VNum 0%float) then
  do assign transformBlock "complementW" (VNum 0%float) then
  do connectTo directionVec3 (mkPoint transformBlock "vector") then
  do connectTo transformMat4 (mkPoint transformBlock "transform") then
  ret (mkPoint transformBlock "output").

Definition fract (input : NodeMaterialConnectionPoint)
    (stage : NodeMaterialBlockTargets) : Build NodeMaterialConnectionPoint :=
  let* fractBlock := new TrigonometryBlock "fract" in
  do assign fractBlock "operation" (VOperation Fract) then
  do assign fractBlock "target" (VTarget stage) then
  do connectTo input (mkPoint fractBlock "input") then
  ret (mkPoint fractBlock "output").

Definition mul (input factor : NodeMaterialConnectionPoint)
    (stage : NodeMaterialBlockTargets) : Build NodeMaterialConnectionPoint :=
  let* scaleBlock := new ScaleBlock "Position to UV scale" in
  do assign scaleBlock "target" (VTarget stage) then
  do connectTo input (mkPoint scaleBlock "input") then
  do connectTo factor (mkPoint scaleBlock "factor") then
  ret (mkPoint scaleBlock "output").

Definition mulVec (left right : NodeMaterialConnectionPoint)
    (stage : NodeMaterialBlockTargets) : Build NodeMaterialConnectionPoint :=
  let* multBlock := new MultiplyBlock "scaledMeshUV" in
  do assign multBlock "target" (VTarget stage) then
  do connectTo left (mkPoint multBlock "left") then
  do connectTo right (mkPoint multBlock "right") then
  ret (mkPoint multBlock "output").

Definition merge (x y : NodeMaterialConnectionPoint)
    (z w : option NodeMaterialConnectionPoint)
    (stage : NodeMaterialBlockTargets) : Build BlockRef :=
  let* merger := new VectorMergerBlock "Merge" in
  do assign merger "target" (VTarget stage) then
  do connectTo x (mkPoint merger "x") then
  do connectTo y (mkPoint merger "y") then
  do connectTo_opt z (mkPoint merger "z") then
  do connectTo_opt w (mkPoint merger "w") then
  ret merger.

Definition vecFromBabylon (vec : BabylonVector) : Build NodeMaterialConnectionPoint :=
  let* meshUVScaleFactor := new InputBlock "Mesh UV scale factor" in
  do assign meshUVScaleFactor "isConstant" (VBool true) then
  do assign meshUVScaleFactor "value" (VVec vec) then
  ret (mkPoint meshUVScaleFactor "output").

Definition vec2 (x y : NodeMaterialConnectionPoint)
    (stage : NodeMaterialBlockTargets) : Build NodeMaterialConnectionPoint :=
  let* merger := merge x y None None stage in
  ret (mkPoint merger "xyOut").

Definition vec3 (x y z : NodeMaterialConnectionPoint)
    (stage : NodeMaterialBlockTargets) : Build NodeMaterialConnectionPoint :=
  let* merger := merge x y (Some z) None stage in
  ret (mkPoint merger "xyzOut").

Definition vec4 (x y z w : NodeMaterialConnectionPoint)
    (stage : NodeMaterialBlockTargets) : Build NodeMaterialConnectionPoint :=
  let* merger := merge x y (Some z) (Some w) stage in
  ret (mkPoint merger "xyzw").

Definition splitVec2 (inputVec2 : NodeMaterialConnectionPoint)
    (stage : NodeMaterialBlockTargets) : Build BlockRef :=
  let* splitBlock := new VectorSplitterBlock "splitVec2" in
  do assign splitBlock "target" (VTarget stage) then
  do connectTo inputVec2 (mkPoint splitBlock "xyIn") then
  ret splitBlock.

Definition splitVec3 (inputVec3 : NodeMaterialConnectionPoint)
    (stage : NodeMaterialBlockTargets) : Build BlockRef :=
  let* splitBlock := new VectorSplitterBlock "splitVec3" in
  do assign splitBlock "target" (VTarget stage) then
  do connectTo inputVec3 (mkPoint splitBlock "xyzIn") then
  ret splitBlock.

Definition xy (inputVec3 : NodeMaterialConnectionPoint)
    (stage : NodeMaterialBlockTargets) : Build NodeMaterialConnectionPoint :=
  let* inputSplitted := splitVec3 inputVec3 stage in
  ret (mkPoint inputSplitted "xyOut").

Definition xz (inputVec3 : NodeMaterialConnectionPoint)
    (stage : NodeMaterialBlockTargets) : Build NodeMaterialConnectionPoint :=
  let* inputSplitted := splitVec3 inputVec3 stage in
  let* outputXZ := new VectorMergerBlock "OutputXZ" in
  do assign outputXZ "target" (VTarget stage) then
  do connectTo (mkPoint inputSplitted "x") (mkPoint outputXZ "x") then
  do connectTo (mkPoint inputSplitted "z") (mkPoint outputXZ "y") then
  ret (mkPoint outputXZ "xyOut").

Definition perturbNormal (uv positionWorldVec3 normalWorldVec3 normalTexture
    bumpStrengthFloat : NodeMaterialConnectionPoint) : Build NodeMaterialConnectionPoint :=
  let* perturbnormal := new PerturbNormalBlock "Perturb normal" in
  do assign perturbnormal "target" (VTarget Fragment) then
  do connectTo uv (mkPoint perturbnormal "uv") then
  do connectTo positionWorldVec3 (mkPoint perturbnormal "worldPosition") then
  do connectTo normalWorldVec3 (mkPoint perturbnormal "worldNormal") then
  do connectTo normalTexture (mkPoint perturbnormal "normalMapColor") then
  do connectTo bumpStrengthFloat (mkPoint perturbnormal "strength") then
  ret (mkPoint perturbnormal "output").

Definition pbrMetallicRoughnessMaterial
    (albedoRgb metallicFloat roughnessFloat : NodeMaterialConnectionPoint)
    (ambientOcclusionFloat : option NodeMaterialConnectionPoint)
    (perturbedNormalVec3 normalWorldVec3 viewMat4 cameraPositionVec3
     positionWorldVec3 : NodeMaterialConnectionPoint) : Build NodeMaterialConnectionPoint :=
  let* pbr := new PBRMetallicRoughnessBlock "PBRMetallicRoughness" in
  do assign pbr "target" (VTarget Fragment) then
  do assign pbr "useEnergyConservation" (VBool true) then
  do assign pbr "useRadianceOcclusion" (VBool true) then
  do assign pbr "useHorizonOcclusion" (VBool true) then
  do connectTo albedoRgb (mkPoint pbr "baseColor") then
  do connectTo metallicFloat (mkPoint pbr "metallic") then
  do connectTo roughnessFloat (mkPoint pbr "roughness") then
  do connectTo_opt ambientOcclusionFloat (mkPoint pbr "ambientOcc") then
  do connectTo perturbedNormalVec3 (mkPoint pbr "perturbedNormal") then
  do connectTo normalWorldVec3 (mkPoint pbr "worldNormal") then
  do connectTo viewMat4 (mkPoint pbr "view") then
  do connectTo cameraPositionVec3 (mkPoint pbr "cameraPosition") then
  do connectTo positionWorldVec3 (mkPoint pbr "worldPosition") then
  ret (mkPoint pbr "lighting").

Definition outputFragColor (colorRgb : NodeMaterialConnectionPoint)
    (props : option OutputFragColorProps) : Build BlockRef :=
  let* fragmentOutput := new FragmentOutputBlock "FragmentOutput" in
  do assign fragmentOutput "target" (VTarget Fragment) then
  do assign fragmentOutput "convertToGammaSpace"
       (VBool (nullish props (fun p => Some (out_convertToGammaSpace p)) false)) then
  do assign fragmentOutput "convertToLinearSpace"
       (VBool (nullish props (fun p => Some (out_convertToLinearSpace p)) false)) then
  do connectTo colorRgb (mkPoint fragmentOutput "rgb") then
  ret fragmentOutput.

Definition outputVertexPosition (positionVec4 : NodeMaterialConnectionPoint) : Build BlockRef :=
  let* vertexOutput := new VertexOutputBlock "VertexOutput" in
  do assign vertexOutput "target" (VTarget Vertex) then
  do connectTo positionVec4 (mkPoint vertexOutput "vector") then
  ret vertexOutput.

End BSL.

(** ** Graphs before and after a call *)

(** [extend g fresh made]: the graph [g] after a call that allocated the
    blocks [fresh] and made the wires [made]. *)
Definition extend (g : Graph) (fresh : list Block) (made : list Wire) : Graph :=
  mkGraph (blocks g ++ fresh) (wires g ++ made).

(** The wire of an optional socket. *)
Definition opt_wire (src : option NodeMaterialConnectionPoint)
    (dst : NodeMaterialConnectionPoint) : list Wire :=
  match src with
  | Some s => [(s, dst)]
  | None => []
  end.

Arguments set_prop : simpl never.
Arguments write : simpl never.
Arguments fresh_block : simpl never.
Arguments on_connection : simpl never.

(** The blocks allocated and the wires made between [g] and a later [g']. *)
Definition allocated (g g' : Graph) : list Block :=
  drop (length (blocks g)) (blocks g').

Definition made_wires (g g' : Graph) : list Wire :=
  drop (length (wires g)) (wires g').

(** An input (or output) point is wired when some wire ends (or starts)
    there. *)
Definition wired (g : Graph) (dst : NodeMaterialConnectionPoint) : Prop :=
  exists src, (src, dst) ∈ wires g.

Definition drives (g : Graph) (src : NodeMaterialConnectionPoint) : Prop :=
  exists dst, (src, dst) ∈ wires g.

(** A point belongs to the graph when its block has been allocated; a graph
    is well formed when both ends of every wire belong to it.  The host
    makes a wire only between points of existing blocks, so these are the
    graphs a caller can hold. *)
Definition point_in (g : Graph) (p : NodeMaterialConnectionPoint) : bool :=
  Nat.ltb (owner p) (length (blocks g)).

Definition graph_wf (g : Graph) : bool :=
  forallb (fun w : Wire => point_in g w.1 && point_in g w.2) (wires g).

(** ** Every factory call, as data *)

(** One constructor per exported factory function, with its arguments. *)
Inductive Call :=
  | CallUniformCameraPosition
  | CallUniformView
  | CallUniformViewProjection
  | CallUniformWorld
  | CallVertexAttribute (name : string)
  | CallFloat (value : number)
  | CallConstFloat (name : string) (value : number)
  | CallUniformFloat (name : string) (value : number)
  | CallSampleTexture (texture : Texture) (uv : NodeMaterialConnectionPoint)
      (props : option TextureBlockProps)
  | CallTransformPosition (transformMat4 positionVec3 : NodeMaterialConnectionPoint)
      (stage : NodeMaterialBlockTargets)
  | CallTransformDirection (transformMat4 directionVec3 : NodeMaterialConnectionPoint)
      (stage : NodeMaterialBlockTargets)
  | CallFract (input : NodeMaterialConnectionPoint) (stage : NodeMaterialBlockTargets)
  | CallMul (input factor : NodeMaterialConnectionPoint) (stage : NodeMaterialBlockTargets)
  | CallMulVec (left right : NodeMaterialConnectionPoint) (stage : NodeMaterialBlockTargets)
  | CallMerge (x y : NodeMaterialConnectionPoint)
      (z w : option NodeMaterialConnectionPoint) (stage : NodeMaterialBlockTargets)
  | CallVecFromBabylon (vec : BabylonVector)
  | CallVec2 (x y : NodeMaterialConnectionPoint) (stage : NodeMaterialBlockTargets)
  | CallVec3 (x y z : NodeMaterialConnectionPoint) (stage : NodeMaterialBlockTargets)
  | CallVec4 (x y z w : NodeMaterialConnectionPoint) (stage : NodeMaterialBlockTargets)
  | CallSplitVec2 (inputVec2 : NodeMaterialConnectionPoint) (stage : NodeMaterialBlockTargets)
  | CallSplitVec3 (inputVec3 : NodeMaterialConnectionPoint) (stage : NodeMaterialBlockTargets)
  | CallXy (inputVec3 : NodeMaterialConnectionPoint) (stage : NodeMaterialBlockTargets)
  | CallXz (inputVec3 : NodeMaterialConnectionPoint) (stage : NodeMaterialBlockTargets)
  | CallPerturbNormal (uv positionWorldVec3 normalWorldVec3 normalTexture
      bumpStrengthFloat : NodeMaterialConnectionPoint)
  | CallPbrMetallicRoughnessMaterial
      (albedoRgb metallicFloat roughnessFloat : NodeMaterialConnectionPoint)
      (ambientOcclusionFloat : option NodeMaterialConnectionPoint)
      (perturbedNormalVec3 normalWorldVec3 viewMat4 cameraPositionVec3
       positionWorldVec3 : NodeMaterialConnectionPoint)
  | CallOutputFragColor (colorRgb : NodeMaterialConnectionPoint)
      (props : option OutputFragColorProps)
  | CallOutputVertexPosition (positionVec4 : NodeMaterialConnectionPoint).

(** What a factory function hands back: a connection point or a block. *)
Inductive Returned :=
  | RetPoint (p : NodeMaterialConnectionPoint)
  | RetBlock (b : BlockRef).

(** The node a returned value belongs to. *)
Definition returned_node (r : Returned) : BlockRef :=
  match r with
  | RetPoint p => owner p
  | RetBlock b => b
  end.

Definition as_point (m : Build NodeMaterialConnectionPoint) : Build Returned :=
  let* p := m in ret (RetPoint p).

Definition as_block (m : Build BlockRef) : Build Returned :=
  let* b := m in ret (RetBlock b).

Definition call (c : Call) : Build Returned :=
  match c with
  | CallUniformCameraPosition => as_point BSL.uniformCameraPosition
  | CallUniformView => as_point BSL.uniformView
  | CallUniformViewProjection => as_point BSL.uniformViewProjection
  | CallUniformWorld => as_point BSL.uniformWorld
  | CallVertexAttribute name => as_point (BSL.vertexAttribute name)
  | CallFloat value => as_point (BSL.float value)
  | CallConstFloat name value => as_point (BSL.constFloat name value)
  | CallUniformFloat name value => as_point (BSL.uniformFloat name value)
  | CallSampleTexture texture uv props => as_block (BSL.sampleTexture texture uv props)
  | CallTransformPosition m v stage => as_point (BSL.transformPosition m v stage)
  | CallTransformDirection m v stage => as_point (BSL.transformDirection m v stage)
  | CallFract input stage => as_point (BSL.fract input stage)
  | CallMul input factor stage => as_point (BSL.mul input factor stage)
  | CallMulVec l r stage => as_point (BSL.mulVec l r stage)
  | CallMerge x y z w stage => as_block (BSL.merge x y z w stage)
  | CallVecFromBabylon vec => as_point (BSL.vecFromBabylon vec)
  | CallVec2 x y stage => as_point (BSL.vec2 x y stage)
  | CallVec3 x y z stage => as_point (BSL.vec3 x y z stage)
  | CallVec4 x y z w stage => as_point (BSL.vec4 x y z w stage)
  | CallSplitVec2 v stage => as_block (BSL.splitVec2 v stage)
  | CallSplitVec3 v stage => as_block (BSL.splitVec3 v stage)
  | CallXy v stage => as_point (BSL.xy v stage)
  | CallXz v stage => as_point (BSL.xz v stage)
  | CallPerturbNormal uv pos nrm tex strength =>
      as_point (BSL.perturbNormal uv pos nrm tex strength)
  | CallPbrMetallicRoughnessMaterial albedo metallic roughness ao pn nw view cam pos =>
      as_point (BSL.pbrMetallicRoughnessMaterial albedo metallic roughness ao pn nw
                  view cam pos)
  | CallOutputFragColor colorRgb props => as_block (BSL.outputFragColor colorRgb props)
  | CallOutputVertexPosition positionVec4 => as_block (BSL.outputVertexPosition positionVec4)
  end.

(** A program of the caller: factory calls made one after the other. *)
Fixpoint run_calls (cs : list Call) : Build (list Returned) :=
  match cs with
  | [] => ret []
  | c :: cs' =>
      let* r := call c in
      let* rs := run_calls cs' in
      ret (r :: rs)
  end.

(** ** Reference constructions and sample graphs *)

(** Splitting by hand and selecting the x and z components with the
    facade's own [splitVec3] and [vec2]: what [xz] is specified to equal. *)
Definition xz_by_hand (inputVec3 : NodeMaterialConnectionPoint)
    (stage : NodeMaterialBlockTargets) : Build NodeMaterialConnectionPoint :=
  let* inputSplitted := BSL.splitVec3 inputVec3 stage in
  BSL.vec2 (mkPoint inputSplitted "x") (mkPoint inputSplitted "z") stage.

(** A graph with its display names forgotten. *)
Definition anonymous (g : Graph) : Graph :=
  mkGraph ((fun b => mkBlock (block_class b) "" (block_props b)) <$> blocks g)
          (wires g).

(** A small program of a caller, run on the empty graph: a vertex attribute,
    a literal and their product.  [sample_position] is the point
    [vertexAttribute] returned, [sample_scaled] the one [mul] returned. *)
Definition sample_program
  : Build (NodeMaterialConnectionPoint * NodeMaterialConnectionPoint) :=
  let* position := BSL.vertexAttribute "position" in
  let* two := BSL.float 2%float in
  let* scaled := BSL.mul position two Stage.VERT in
  ret (position, scaled).

Definition sample_graph : Graph := (sample_program empty_graph).2.

Definition sample_position : NodeMaterialConnectionPoint :=
  (sample_program empty_graph).1.1.

Definition sample_scaled : NodeMaterialConnectionPoint :=
  (sample_program empty_graph).1.2.

(** The literal of the sample program. *)
Definition sample_two : NodeMaterialConnectionPoint := mkPoint 1 "output".

(** A scene as the facade is meant to be used: the position, normal and uv
    attributes (blocks 0 to 2), the world, view and camera position uniforms
    (3 to 5), the world position and world normal (6, 7), an albedo and a
    normal map sampled at uv (8, 9), a bump strength (10), the perturbed
    normal (11) and the metallic and roughness factors (12, 13). *)
Definition scene_calls : list Call :=
  [CallVertexAttribute "position";
   CallVertexAttribute "normal";
   CallVertexAttribute "uv";
   CallUniformWorld;
   CallUniformView;
   CallUniformCameraPosition;
   CallTransformPosition (mkPoint 3 "output") (mkPoint 0 "output") Stage.VERT;
   CallTransformDirection (mkPoint 3 "output") (mkPoint 1 "output") Stage.VERT;
   CallSampleTexture {| texture_ref := 0 |} (mkPoint 2 "output") None;
   CallSampleTexture {| texture_ref := 1 |} (mkPoint 2 "output") None;
   CallFloat 1%float;
   CallPerturbNormal (mkPoint 2 "output") (mkPoint 6 "output")
     (mkPoint 7 "output") (mkPoint 9 "rgb") (mkPoint 10 "output");
   CallFloat 0%float;
   CallFloat 1%float].

Definition scene_graph : Graph := (run_calls scene_calls empty_graph).2.

(** ** Sentences of the specification, as stated *)




(** "[xy] constructs a splitter on [v] and a fresh merger, wires the split's
    x and y outputs into the merger, and returns the merger's two-component
    output." *)
Definition xy_splits_then_merges (v : NodeMaterialConnectionPoint)
    (stage : NodeMaterialBlockTargets) (g : Graph) : Prop :=
  let '(p, g') := BSL.xy v stage g in
  exists sp mg : BlockRef,
    class_of g' sp = Some VectorSplitterBlock /\
    class_of g' mg = Some VectorMergerBlock /\
    (v, mkPoint sp "xyzIn") ∈ wires g' /\
    (mkPoint sp "x", mkPoint mg "x") ∈ wires g' /\
    (mkPoint sp "y", mkPoint mg "y") ∈ wires g' /\
    p = mkPoint mg "xyOut".

(** "Every call of [mulVec] creates nodes carrying the display names
    Mesh UV scale factor and scaledMeshUV." *)
Definition mulVec_uses_both_names (left right : NodeMaterialConnectionPoint)
    (stage : NodeMaterialBlockTargets) (g : Graph) : Prop :=
  let '(_, g') := BSL.mulVec left right stage g in
  "Mesh UV scale factor" ∈ (block_name <$> allocated g g') /\
  "scaledMeshUV" ∈ (block_name <$> allocated g g').

(** ** The sockets and the stage a call is given *)

(** The connection points passed to a call, in the order of its
    parameters; a [null] contributes none. *)
Definition call_points (c : Call) : list NodeMaterialConnectionPoint :=
  match c with
  | CallUniformCameraPosition | CallUniformView | CallUniformViewProjection
  | CallUniformWorld | CallVertexAttribute _ | CallFloat _ | CallConstFloat _ _
  | CallUniformFloat _ _ | CallVecFromBabylon _ => []
  | CallSampleTexture _ uv _ => [uv]
  | CallTransformPosition m v _ => [m; v]
  | CallTransformDirection m v _ => [m; v]
  | CallFract input _ => [input]
  | CallMul input factor _ => [input; factor]
  | CallMulVec l r _ => [l; r]
  | CallMerge x y z w _ => [x; y] ++ option_list z ++ option_list w
  | CallVec2 x y _ => [x; y]
  | CallVec3 x y z _ => [x; y; z]
  | CallVec4 x y z w _ => [x; y; z; w]
  | CallSplitVec2 v _ => [v]
  | CallSplitVec3 v _ => [v]
  | CallXy v _ => [v]
  | CallXz v _ => [v]
  | CallPerturbNormal uv pos nrm tex strength => [uv; pos; nrm; tex; strength]
  | CallPbrMetallicRoughnessMaterial albedo metallic roughness ao pn nw view cam pos =>
      [albedo; metallic; roughness] ++ option_list ao ++ [pn; nw; view; cam; pos]
  | CallOutputFragColor colorRgb _ => [colorRgb]
  | CallOutputVertexPosition positionVec4 => [positionVec4]
  end.


(** Is the call one of [xz], the only function with two [new]? *)
Definition is_xz (c : Call) : bool :=
  match c with
  | CallXz _ _ => true
  | _ => false
  end.

Definition is_vecFromBabylon (c : Call) : bool :=
  match c with
  | CallVecFromBabylon _ => true
  | _ => false
  end.

(** The outputs of its own splitter that [xz] wires into its merger; no
    other call wires a block of its own. *)
Definition inner_sources (c : Call) (first : BlockRef)
  : list NodeMaterialConnectionPoint :=
  match c with
  | CallXz _ _ => [mkPoint first "x"; mkPoint first "z"]
  | _ => []
  end.

(** Every socket passed to the call belongs to the graph. *)
Definition call_in (g : Graph) (c : Call) : bool :=
  forallb (point_in g) (call_points c).

(** Every call of a program is given sockets of the graph as it is when the
    call is made. *)
Fixpoint calls_in (g : Graph) (cs : list Call) : bool :=
  match cs with
  | [] => true
  | c :: cs' => call_in g c && calls_in (call c g).2 cs'
  end.

(** Every wire runs from a block to one allocated later. *)
Definition graph_ordered (g : Graph) : bool :=
  forallb (fun w : Wire => Nat.ltb (owner w.1) (owner w.2)) (wires g).

(** [feeds g a b]: some chain of wires leads from block [a] to block [b]. *)
Inductive feeds (g : Graph) : BlockRef -> BlockRef -> Prop :=
  | feeds_wire s d : (s, d) ∈ wires g -> feeds g (owner s) (owner d)
  | feeds_trans a b c : feeds g a b -> feeds g b c -> feeds g a c.

(** Does the block carry a [target]? *)
Definition has_target (b : Block) : bool :=
  bool_decide (is_Some (block_props b !! "target")).

(** [splitVec3(vec3(a, b, c, stage), stage)] *)
Definition split_of_vec3 (a b c : NodeMaterialConnectionPoint)
    (stage : NodeMaterialBlockTargets) : Build BlockRef :=
  let* v := BSL.vec3 a b c stage in
  BSL.splitVec3 v stage.

(** The first example of the Readme, made a fragment colour: the uv
    attribute samples a texture whose rgb output is the colour. *)
Definition textured_fragment (texture : Texture) : Build BlockRef :=
  let* uv := BSL.vertexAttribute "uv" in
  let* albedoTexture := BSL.sampleTexture texture uv None in
  BSL.outputFragColor (mkPoint albedoTexture "rgb") None.

(** A longer program for the sample graph to grow by. *)
Definition sample_calls : list Call :=
  [CallXz sample_scaled Stage.VERT;
   CallVecFromBabylon (Vector2 2%float 10%float);
   CallMulVec (mkPoint 4 "xyOut") (mkPoint 5 "output") Stage.VERT;
   CallMerge sample_two sample_two (Some sample_two) None Stage.FRAG;
   CallOutputFragColor (mkPoint 7 "xyzOut") None].

(** ** Running a builder: the frame of a call *)

Section Frame.
Context {A : Type}.
Variables (g : Graph) (fresh : list Block) (made : list Wire).

Lemma extend_nil : extend g [] [] = g.
Proof. destruct g; unfold extend; simpl. by rewrite !app_nil_r. Qed.

Lemma bind_ret {B} (a : B) (k : B -> Build A) (h : Graph) :
  bind (ret a) k h = k a h.
Proof. reflexivity. Qed.

Lemma bind_assoc {B C} (m : Build B) (f : B -> Build C) (k : C -> Build A)
    (h : Graph) :
  bind (bind m f) k h = bind m (fun b => bind (f b) k) h.
Proof. unfold bind. by destruct (m h). Qed.

Lemma bind_new c name (k : BlockRef -> Build A) :
  bind (new c name) k (extend g fresh made)
  = k (length (blocks g) + length fresh)
      (extend g (fresh ++ [fresh_block c name]) made).
Proof.
  unfold bind, new, extend; simpl.
  by rewrite length_app, app_assoc.
Qed.

Lemma bind_assign i key v (k : unit -> Build A) :
  bind (assign (length (blocks g) + i) key v) k (extend g fresh made)
  = k tt (extend g (alter (write key v) i fresh) made).
Proof.
  unfold bind, assign, extend; simpl.
  by rewrite alter_app_r.
Qed.

Lemma bind_connectTo src i q (k : unit -> Build A) :
  bind (connectTo src (mkPoint (length (blocks g) + i) q)) k
       (extend g fresh made)
  = k tt (extend g
            (alter (on_connection ((blocks g ++ fresh)%list !! owner src) q) i fresh)
            (made ++ [(src, mkPoint (length (blocks g) + i) q)])).
Proof.
  unfold bind, connectTo, extend; simpl.
  by rewrite alter_app_r, app_assoc.
Qed.

Lemma alter_unobserved (f : Block -> Block) (P : Block -> bool) i
    (l : list Block) :
  (forall d, P d = false -> f d = d) ->
  from_option P false (l !! i) = false ->
  alter f i l = l.
Proof.
  intros Hf. revert i. induction l as [|d l IH]; intros [|i] Hi; simpl in *;
    try done.
  - by rewrite Hf.
  - f_equal. by apply IH.
Qed.

(** A destination that does not observe the input: only the wire is
    made. *)
Lemma bind_connectTo_plain src i q (k : unit -> Build A) :
  from_option (fun d => observes d q) false (fresh !! i) = false ->
  bind (connectTo src (mkPoint (length (blocks g) + i) q)) k
       (extend g fresh made)
  = k tt (extend g fresh (made ++ [(src, mkPoint (length (blocks g) + i) q)])).
Proof.
  intros Hd. rewrite bind_connectTo.
  rewrite (alter_unobserved _ (fun d => observes d q)); [done| |done].
  intros d Hq. unfold on_connection. by rewrite Hq.
Qed.

Lemma bind_connectTo_opt src i q (k : unit -> Build A) :
  from_option (fun d => observes d q) false (fresh !! i) = false ->
  bind (connectTo_opt src (mkPoint (length (blocks g) + i) q)) k
       (extend g fresh made)
  = k tt (extend g fresh
            (made ++ opt_wire src (mkPoint (length (blocks g) + i) q))).
Proof.
  intros Hd. destruct src; simpl.
  - by apply bind_connectTo_plain.
  - by rewrite app_nil_r.
Qed.
End Frame.

(** The observer asks whether the source is an input block; the blocks of
    the call under way are none. *)
Lemma direction_input_fresh g fresh n :
  Forall (fun b => block_class b <> InputBlock) fresh ->
  direction_input ((blocks g ++ fresh)%list !! n)
  = direction_input (blocks g !! n).
Proof.
  intros Hfresh. destruct (decide (n < length (blocks g))) as [Hn|Hn].
  - by rewrite lookup_app_l.
  - rewrite lookup_app_r, (lookup_ge_None_2 (blocks g)) by lia.
    destruct (fresh !! (n - length (blocks g))) as [b|] eqn:Hb; [|done].
    rewrite Forall_forall in Hfresh.
    apply list_elem_of_lookup_2, Hfresh in Hb. simpl.
    by destruct (block_class b).
Qed.

Lemma on_connection_source g fresh n q d :
  Forall (fun b => block_class b <> InputBlock) fresh ->
  on_connection ((blocks g ++ fresh)%list !! n) q d
  = on_connection (blocks g !! n) q d.
Proof.
  intros Hfresh. unfold on_connection.
  by rewrite direction_input_fresh.
Qed.

(** Symbolic execution of a builder on [extend g _ _]. *)
Ltac run_steps :=
  repeat (rewrite bind_assoc || rewrite bind_new || rewrite bind_assign
          || (rewrite bind_connectTo_plain by reflexivity)
          || (rewrite bind_connectTo_opt by reflexivity)
          || rewrite bind_connectTo || rewrite bind_ret);
  unfold ret; simpl;
  rewrite ?on_connection_source by (repeat constructor; discriminate).

Ltac run_from g :=
  rewrite <- (extend_nil g) at 1; run_steps; rewrite ?Nat.add_0_r.

Create HintDb facade.

#[local] Hint Unfold call as_point as_block setAsSystemValue setAsAttribute
  BSL.uniformCameraPosition BSL.uniformView BSL.uniformViewProjection
  BSL.uniformWorld BSL.vertexAttribute BSL.float BSL.constFloat
  BSL.uniformFloat BSL.sampleTexture BSL.transformPosition
  BSL.transformDirection BSL.fract BSL.mul BSL.mulVec BSL.merge
  BSL.vecFromBabylon BSL.vec2 BSL.vec3 BSL.vec4 BSL.splitVec2 BSL.splitVec3
  BSL.xy BSL.xz BSL.perturbNormal BSL.pbrMetallicRoughnessMaterial
  BSL.outputFragColor BSL.outputVertexPosition : facade.

Lemma graph_wf_wire g s d :
  graph_wf g = true -> (s, d) ∈ wires g ->
  owner s < length (blocks g) /\ owner d < length (blocks g).
Proof.
  unfold graph_wf. rewrite forallb_forall. intros Hwf Hin.
  apply list_elem_of_In, Hwf in Hin. simpl in Hin.
  apply andb_prop in Hin as [Hs Hd]. unfold point_in in *.
  by apply Nat.ltb_lt in Hs, Hd.
Qed.

Lemma allocated_extend g fresh made : allocated g (extend g fresh made) = fresh.
Proof. unfold allocated, extend; simpl. by rewrite drop_app_length. Qed.

Lemma made_wires_extend g fresh made : made_wires g (extend g fresh made) = made.
Proof. unfold made_wires, extend; simpl. by rewrite drop_app_length. Qed.

Lemma length_blocks_extend g fresh made :
  length (blocks (extend g fresh made)) = length (blocks g) + length fresh.
Proof. unfold extend; simpl. apply length_app. Qed.

Lemma lookup_extend_fresh g fresh made i :
  blocks (extend g fresh made) !! (length (blocks g) + i) = fresh !! i.
Proof.
  unfold extend; simpl.
  by rewrite lookup_app_r, Nat.add_comm, Nat.add_sub by lia.
Qed.

Lemma lookup_extend_first g fresh made :
  blocks (extend g fresh made) !! length (blocks g) = fresh !! 0.
Proof.
  rewrite <- (Nat.add_0_r (length (blocks g))) at 1.
  apply lookup_extend_fresh.
Qed.

Lemma take_blocks_extend g fresh made :
  take (length (blocks g)) (blocks (extend g fresh made)) = blocks g.
Proof. unfold extend; simpl. by rewrite take_app_length. Qed.

Lemma block_prop_extend_fresh g fresh made i key :
  block_prop (extend g fresh made) (length (blocks g) + i) key
  = fresh !! i ≫= fun blk => block_props blk !! key.
Proof. unfold block_prop. by rewrite lookup_extend_fresh. Qed.

Lemma block_prop_extend_first g fresh made key :
  block_prop (extend g fresh made) (length (blocks g)) key
  = fresh !! 0 ≫= fun blk => block_props blk !! key.
Proof. unfold block_prop. by rewrite lookup_extend_first. Qed.

Lemma wire_extend g fresh made w :
  w ∈ wires (extend g fresh made) <-> w ∈ wires g \/ w ∈ made.
Proof. unfold extend; simpl. apply elem_of_app. Qed.

(** In a well-formed graph no earlier wire touches a block allocated
    later. *)
Lemma wire_into_fresh g fresh made s i q :
  graph_wf g = true ->
  (s, mkPoint (length (blocks g) + i) q) ∈ wires (extend g fresh made)
  <-> (s, mkPoint (length (blocks g) + i) q) ∈ made.
Proof.
  intros Hwf. rewrite wire_extend. split; [|by right].
  intros [Hold|]; [|done].
  apply (graph_wf_wire _ _ _ Hwf) in Hold as [_ Hd]. simpl in Hd. lia.
Qed.

Lemma wire_from_fresh g fresh made d i q :
  graph_wf g = true ->
  (mkPoint (length (blocks g) + i) q, d) ∈ wires (extend g fresh made)
  <-> (mkPoint (length (blocks g) + i) q, d) ∈ made.
Proof.
  intros Hwf. rewrite wire_extend. split; [|by right].
  intros [Hold|]; [|done].
  apply (graph_wf_wire _ _ _ Hwf) in Hold as [Hs _]. simpl in Hs. lia.
Qed.

Lemma wire_into_first g fresh made s q :
  graph_wf g = true ->
  (s, mkPoint (length (blocks g)) q) ∈ wires (extend g fresh made)
  <-> (s, mkPoint (length (blocks g)) q) ∈ made.
Proof.
  rewrite <- (Nat.add_0_r (length (blocks g))) at 1 2.
  apply wire_into_fresh.
Qed.

Lemma wire_from_first g fresh made d q :
  graph_wf g = true ->
  (mkPoint (length (blocks g)) q, d) ∈ wires (extend g fresh made)
  <-> (mkPoint (length (blocks g)) q, d) ∈ made.
Proof.
  rewrite <- (Nat.add_0_r (length (blocks g))) at 1 2.
  apply wire_from_fresh.
Qed.

(** *** What each call adds to the graph *)

Lemma vertexAttribute_run name g :
  BSL.vertexAttribute name g
  = (mkPoint (length (blocks g)) "output",
     extend g
       [write "attribute" (VAttribute name)
          (write "target" (VTarget Vertex) (fresh_block InputBlock name))]
       []).
Proof. unfold BSL.vertexAttribute, setAsAttribute. by run_from g. Qed.

Lemma vecFromBabylon_run vec g :
  BSL.vecFromBabylon vec g
  = (mkPoint (length (blocks g)) "output",
     extend g
       [write "value" (VVec vec)
          (write "isConstant" (VBool true)
             (fresh_block InputBlock "Mesh UV scale factor"))]
       []).
Proof. unfold BSL.vecFromBabylon. by run_from g. Qed.

Lemma sampleTexture_run texture uv props g :
  BSL.sampleTexture texture uv props g
  = (length (blocks g),
     extend g
       [write "texture" (VTexture texture)
          (write "disableLevelMultiplication"
             (VBool (nullish props tex_disableLevelMultiplication false))
             (write "convertToLinearSpace"
                (VBool (nullish props tex_convertToLinearSpace false))
                (write "convertToGammaSpace"
                   (VBool (nullish props tex_convertToGammaSpace false))
                   (write "target" (VTarget VertexAndFragment)
                      (fresh_block TextureBlock "texture")))))]
       [(uv, mkPoint (length (blocks g)) "uv")]).
Proof. unfold BSL.sampleTexture. by run_from g. Qed.



Lemma mulVec_run left right stage g :
  BSL.mulVec left right stage g
  = (mkPoint (length (blocks g)) "output",
     extend g
       [write "target" (VTarget stage) (fresh_block MultiplyBlock "scaledMeshUV")]
       [(left, mkPoint (length (blocks g)) "left");
        (right, mkPoint (length (blocks g)) "right")]).
Proof. unfold BSL.mulVec. by run_from g. Qed.

Lemma merge_run x y z w stage g :
  BSL.merge x y z w stage g
  = (length (blocks g),
     extend g
       [write "target" (VTarget stage) (fresh_block VectorMergerBlock "Merge")]
       ([(x, mkPoint (length (blocks g)) "x");
         (y, mkPoint (length (blocks g)) "y")]
        ++ opt_wire z (mkPoint (length (blocks g)) "z")
        ++ opt_wire w (mkPoint (length (blocks g)) "w"))).
Proof.
  unfold BSL.merge. by run_from g.
Qed.

Lemma splitVec3_run inputVec3 stage g :
  BSL.splitVec3 inputVec3 stage g
  = (length (blocks g),
     extend g
       [write "target" (VTarget stage)
          (fresh_block VectorSplitterBlock "splitVec3")]
       [(inputVec3, mkPoint (length (blocks g)) "xyzIn")]).
Proof. unfold BSL.splitVec3. by run_from g. Qed.

Lemma xy_run inputVec3 stage g :
  BSL.xy inputVec3 stage g
  = (mkPoint (length (blocks g)) "xyOut",
     extend g
       [write "target" (VTarget stage)
          (fresh_block VectorSplitterBlock "splitVec3")]
       [(inputVec3, mkPoint (length (blocks g)) "xyzIn")]).
Proof. unfold BSL.xy, BSL.splitVec3. by run_from g. Qed.

Lemma xz_run inputVec3 stage g :
  BSL.xz inputVec3 stage g
  = (mkPoint (length (blocks g) + 1) "xyOut",
     extend g
       [write "target" (VTarget stage)
          (fresh_block VectorSplitterBlock "splitVec3");
        write "target" (VTarget stage)
          (fresh_block VectorMergerBlock "OutputXZ")]
       [(inputVec3, mkPoint (length (blocks g)) "xyzIn");
        (mkPoint (length (blocks g)) "x", mkPoint (length (blocks g) + 1) "x");
        (mkPoint (length (blocks g)) "z", mkPoint (length (blocks g) + 1) "y")]).
Proof. unfold BSL.xz, BSL.splitVec3. by run_from g. Qed.

Lemma xz_by_hand_run inputVec3 stage g :
  xz_by_hand inputVec3 stage g
  = (mkPoint (length (blocks g) + 1) "xyOut",
     extend g
       [write "target" (VTarget stage)
          (fresh_block VectorSplitterBlock "splitVec3");
        write "target" (VTarget stage)
          (fresh_block VectorMergerBlock "Merge")]
       [(inputVec3, mkPoint (length (blocks g)) "xyzIn");
        (mkPoint (length (blocks g)) "x", mkPoint (length (blocks g) + 1) "x");
        (mkPoint (length (blocks g)) "z", mkPoint (length (blocks g) + 1) "y")]).
Proof.
  unfold xz_by_hand, BSL.vec2, BSL.merge, BSL.splitVec3. by run_from g.
Qed.


Lemma outputFragColor_run colorRgb props g :
  BSL.outputFragColor colorRgb props g
  = (length (blocks g),
     extend g
       [write "convertToLinearSpace"
          (VBool (nullish props (fun p => Some (out_convertToLinearSpace p)) false))
          (write "convertToGammaSpace"
             (VBool (nullish props (fun p => Some (out_convertToGammaSpace p)) false))
             (write "target" (VTarget Fragment)
                (fresh_block FragmentOutputBlock "FragmentOutput")))]
       [(colorRgb, mkPoint (length (blocks g)) "rgb")]).
Proof. unfold BSL.outputFragColor. by run_from g. Qed.

(** *** Every call extends the graph *)

(** Whatever the call, the graph afterwards is the graph before extended by
    at least one fresh block, and the value handed back belongs to one of
    the fresh blocks. *)
Lemma call_frame c g :
  exists r fresh made i,
    call c g = (r, extend g fresh made)
    /\ returned_node r = length (blocks g) + i
    /\ i < length fresh.
Proof.
  destruct c; eexists _, _, _, _;
    (split; [autounfold with facade; rewrite <- (extend_nil g) at 1;
             run_steps; reflexivity|]);
    simpl; split; (reflexivity || lia).
Qed.

(** A second call cannot hand back a node of the first. *)
Lemma call_frame_next c g :
  length (blocks g) <= returned_node (call c g).1 < length (blocks (call c g).2)
  /\ take (length (blocks g)) (blocks (call c g).2) = blocks g.
Proof.
  destruct (call_frame c g) as (r & fresh & made & i & -> & Hr & Hi).
  cbn [fst snd]. rewrite length_blocks_extend, take_blocks_extend, Hr. split; [lia|done].
Qed.

Lemma run_calls_cons c cs g :
  run_calls (c :: cs) g
  = ((call c g).1 :: (run_calls cs (call c g).2).1,
     (run_calls cs (call c g).2).2).
Proof.
  simpl. unfold bind, ret.
  destruct (call c g) as [r g1]; simpl.
  by destruct (run_calls cs g1).
Qed.

Lemma run_calls_frame cs : forall g,
  Forall (fun r => length (blocks g) <= returned_node r
                   < length (blocks (run_calls cs g).2))
         (run_calls cs g).1
  /\ NoDup (returned_node <$> (run_calls cs g).1)
  /\ length (blocks g) <= length (blocks (run_calls cs g).2)
  /\ take (length (blocks g)) (blocks (run_calls cs g).2) = blocks g.
Proof.
  induction cs as [|c cs IH]; intros g.
  - simpl. repeat split; [constructor | constructor | lia | apply firstn_all].
  - rewrite run_calls_cons. cbn [fst snd].
    destruct (call_frame_next c g) as [[Hlo Hhi] Hkeep].
    destruct (IH (call c g).2) as (Hall & Hnd & Hle & Htake).
    set (g1 := (call c g).2) in *. set (r := (call c g).1) in *.
    set (g2 := (run_calls cs g1).2) in *. set (rs := (run_calls cs g1).1) in *.
    repeat split.
    + constructor; [lia|].
      eapply Forall_impl; [exact Hall|]. simpl. lia.
    + rewrite fmap_cons. constructor; [|done].
      rewrite list_elem_of_fmap. intros (r' & Heq & Hin).
      rewrite Forall_forall in Hall. apply Hall in Hin. lia.
    + lia.
    + rewrite <- Hkeep at 2. rewrite <- Htake.
      rewrite take_take. f_equal. lia.
Qed.

(** The sample program: three blocks, the two wires of [mul], and the
    points it hands back. *)
Example sample_program_result :
  sample_position = mkPoint 0 "output"
  /\ sample_scaled = mkPoint 2 "output"
  /\ block_class <$> blocks sample_graph = [InputBlock; InputBlock; ScaleBlock]
  /\ wires sample_graph
     = [(mkPoint 0 "output", mkPoint 2 "input");
        (mkPoint 1 "output", mkPoint 2 "factor")]
  /\ graph_wf sample_graph = true.
Proof. repeat split; reflexivity. Qed.

(** The scene: its blocks, in allocation order, and what feeds the
    perturbed normal. *)
Example scene_graph_result :
  (fun b => (block_class b, block_name b)) <$> blocks scene_graph
  = [(InputBlock, "position"); (InputBlock, "normal"); (InputBlock, "uv");
     (InputBlock, "world"); (InputBlock, "view"); (InputBlock, "cameraPosition");
     (TransformBlock, "TransformPosition");
     (TransformBlock, "TransformDirection");
     (TextureBlock, "texture"); (TextureBlock, "texture");
     (InputBlock, "float"); (PerturbNormalBlock, "Perturb normal");
     (InputBlock, "float"); (InputBlock, "float")]
  /\ graph_wf scene_graph = true
  /\ calls_in empty_graph scene_calls = true.
Proof. repeat split; reflexivity. Qed.

(** * The claims *)

(** C1. [sampleTexture]: with the options record omitted the created
    texture block has [convertToLinearSpace], [convertToGammaSpace] and
    [disableLevelMultiplication] all false; with a record, each field that
    is omitted resolves to false and each field that is supplied takes the
    supplied value. *)
Theorem sampleTexture_option_defaults texture uv g :
  (let '(b, g') := BSL.sampleTexture texture uv None g in
   class_of g' b = Some TextureBlock /\
   block_prop g' b "convertToLinearSpace" = Some (VBool false) /\
   block_prop g' b "convertToGammaSpace" = Some (VBool false) /\
   block_prop g' b "disableLevelMultiplication" = Some (VBool false)) /\
  (forall lin gam lvl : option bool,
   let '(b, g') := BSL.sampleTexture texture uv
                     (Some (mkTextureBlockProps lin gam lvl)) g in
   class_of g' b = Some TextureBlock /\
   block_prop g' b "convertToLinearSpace" = Some (VBool (default false lin)) /\
   block_prop g' b "convertToGammaSpace" = Some (VBool (default false gam)) /\
   block_prop g' b "disableLevelMultiplication" = Some (VBool (default false lvl))).
Proof.
  split; [|intros lin gam lvl]; rewrite sampleTexture_run;
    unfold class_of; rewrite !block_prop_extend_first, lookup_extend_first;
    simpl; repeat split; reflexivity.
Qed.

(** C2. [outputFragColor] always returns a fragment-output block whose
    declared target is the fragment stage, and [vertexAttribute] always
    returns the output of an input block, set as an attribute, whose
    declared target is the vertex stage; in both the stage assigned is the
    stage the block reports. *)
Theorem sink_and_attribute_declared_stage :
  (forall colorRgb props g,
   let '(b, g') := BSL.outputFragColor colorRgb props g in
   class_of g' b = Some FragmentOutputBlock /\
   block_target g' b = Some (VTarget Fragment) /\
   reported_target g' b = Some Fragment) /\
  (forall name g,
   let '(p, g') := BSL.vertexAttribute name g in
   port p = "output" /\
   class_of g' (owner p) = Some InputBlock /\
   block_prop g' (owner p) "attribute" = Some (VAttribute name) /\
   block_target g' (owner p) = Some (VTarget Vertex) /\
   reported_target g' (owner p) = Some Vertex).
Proof.
  split.
  - intros colorRgb props g. rewrite outputFragColor_run.
    unfold class_of, block_target, reported_target.
    rewrite block_prop_extend_first, !lookup_extend_first. by simpl.
  - intros name g. rewrite vertexAttribute_run.
    unfold class_of, block_target, reported_target. cbn [owner port].
    rewrite !block_prop_extend_first, !lookup_extend_first. by simpl.
Qed.




(** C8. Every factory call allocates its nodes afresh: in any sequence of
    calls the nodes handed back are pairwise distinct, none of them existed
    before the sequence, and the blocks that existed are kept as they were;
    in particular two calls of the same function on identical arguments
    hand back distinct nodes. *)
Theorem factory_calls_hand_back_fresh_nodes :
  (forall (cs : list Call) (g : Graph),
   let '(rs, g') := run_calls cs g in
   NoDup (returned_node <$> rs) /\
   Forall (fun r => length (blocks g) <= returned_node r < length (blocks g')) rs /\
   take (length (blocks g)) (blocks g') = blocks g) /\
  (forall (c1 c2 : Call) (g : Graph),
   let '(r1, g1) := call c1 g in
   let '(r2, g2) := call c2 g1 in
   returned_node r1 < length (blocks g1) <= returned_node r2 /\
   returned_node r1 <> returned_node r2 /\ r1 <> r2).
Proof.
  split.
  - intros cs g. pose proof (run_calls_frame cs g) as (Hall & Hnd & _ & Htake).
    by destruct (run_calls cs g) as [rs g'].
  - intros c1 c2 g.
    pose proof (call_frame_next c1 g) as [[_ H1] _].
    pose proof (call_frame_next c2 (call c1 g).2) as [[H2 _] _].
    destruct (call c1 g) as [r1 g1]; cbn [fst snd] in *.
    destruct (call c2 g1) as [r2 g2]; cbn [fst snd] in *.
    repeat split; [lia.. | intros ->; lia].
Qed.

(** Membership in the wires a call made, decided case by case. *)
Ltac wire_cases :=
  repeat match goal with
         | H : _ ∈ _ :: _ |- _ => apply elem_of_cons in H as [H|H]
         | H : _ ∈ [] |- _ => by apply elem_of_nil in H
         | H : (_, _) = (_, _) |- _ => inversion H; clear H; subst
         | H : mkPoint _ _ = mkPoint _ _ |- _ => inversion H; clear H; subst
         end.

Ltac wire_found :=
  simpl; repeat (rewrite elem_of_app || rewrite elem_of_cons); auto 12.

(** C3. [merge] always wires [x] and [y] to the merger's x and y ports; its
    z port is wired exactly when a non-null [z] is passed, and its w port
    exactly when a non-null [w] is passed; [vec2], [vec3] and [vec4] are
    [merge] with none, the first or both of the optional sockets. *)
Theorem merge_wires_optional_components x y z w stage g :
  graph_wf g = true ->
  (let '(m, g') := BSL.merge x y z w stage g in
   class_of g' m = Some VectorMergerBlock /\
   made_wires g g' = ([(x, mkPoint m "x"); (y, mkPoint m "y")]
                      ++ opt_wire z (mkPoint m "z")
                      ++ opt_wire w (mkPoint m "w"))%list /\
   (x, mkPoint m "x") ∈ wires g' /\
   (y, mkPoint m "y") ∈ wires g' /\
   (wired g' (mkPoint m "z") <-> z <> None) /\
   (wired g' (mkPoint m "w") <-> w <> None) /\
   (forall s, (s, mkPoint m "z") ∈ wires g' -> z = Some s) /\
   (forall s, (s, mkPoint m "w") ∈ wires g' -> w = Some s)) /\
  BSL.vec2 x y stage g
  = (let '(m, g') := BSL.merge x y None None stage g in (mkPoint m "xyOut", g')) /\
  (forall z', BSL.vec3 x y z' stage g
   = (let '(m, g') := BSL.merge x y (Some z') None stage g in
      (mkPoint m "xyzOut", g'))) /\
  (forall z' w', BSL.vec4 x y z' w' stage g
   = (let '(m, g') := BSL.merge x y (Some z') (Some w') stage g in
      (mkPoint m "xyzw", g'))).
Proof.
  intros Hwf. split; [|by repeat split].
  rewrite merge_run. unfold class_of, wired.
  rewrite lookup_extend_first, made_wires_extend.
  repeat split.
  - apply wire_extend; right. wire_found.
  - apply wire_extend; right. wire_found.
  - intros [s Hs]. apply wire_into_first in Hs; [|done].
    destruct z; [done|]. destruct w; simpl in Hs; wire_cases.
  - intros Hz. destruct z as [s|]; [|done]. exists s.
    apply wire_extend; right. simpl. wire_found.
  - intros [s Hs]. apply wire_into_first in Hs; [|done].
    destruct w; [done|]. destruct z; simpl in Hs; wire_cases.
  - intros Hw. destruct w as [s|]; [|done]. exists s.
    apply wire_extend; right. destruct z; simpl; wire_found.
  - intros s Hs. apply wire_into_first in Hs; [|done].
    destruct z, w; simpl in Hs; wire_cases; done.
  - intros s Hs. apply wire_into_first in Hs; [|done].
    destruct z, w; simpl in Hs; wire_cases; done.
Qed.

Lemma merge_wires_optional_components_witness :
  graph_wf sample_graph = true /\
  let '(m, g') := BSL.merge sample_two sample_two
                    (Some sample_two) None Stage.VERT sample_graph in
  wired g' (mkPoint m "z") /\ ~ wired g' (mkPoint m "w").
Proof.
  split; [reflexivity|].
  pose proof (merge_wires_optional_components sample_two sample_two
                (Some sample_two) None Stage.VERT sample_graph eq_refl)
    as [H _].
  destruct (BSL.merge sample_two sample_two (Some sample_two)
              None Stage.VERT sample_graph) as [m g'].
  destruct H as (_ & _ & _ & _ & Hz & Hw & _).
  split; [by apply Hz | intros Hc; by apply Hw in Hc].
Defined.

(** C4. [xz] allocates a splitter fed by [v] and then a fresh merger, wires
    the splitter's x output to the merger's x port and the splitter's z
    output to the merger's y port, leaves the splitter's y output out of
    every wire, and returns the merger's two-component output; up to the
    display name of the merger this is the graph and the point obtained by
    calling [splitVec3] and then [vec2] on the x and z outputs by hand. *)
Theorem xz_splits_and_merges_x_z v stage g :
  graph_wf g = true ->
  point_in g v = true ->
  let '(p, g') := BSL.xz v stage g in
  let sp := length (blocks g) in
  let mg := length (blocks g) + 1 in
  block_class <$> allocated g g' = [VectorSplitterBlock; VectorMergerBlock] /\
  block_target g' sp = Some (VTarget stage) /\
  block_target g' mg = Some (VTarget stage) /\
  (v, mkPoint sp "xyzIn") ∈ wires g' /\
  (mkPoint sp "x", mkPoint mg "x") ∈ wires g' /\
  (mkPoint sp "z", mkPoint mg "y") ∈ wires g' /\
  ~ drives g' (mkPoint sp "y") /\
  (forall s, (s, mkPoint mg "x") ∈ wires g' -> s = mkPoint sp "x") /\
  (forall s, (s, mkPoint mg "y") ∈ wires g' -> s = mkPoint sp "z") /\
  p = mkPoint mg "xyOut" /\
  (let '(q, h') := xz_by_hand v stage g in
   p = q /\ anonymous g' = anonymous h').
Proof.
  intros Hwf Hv. apply Nat.ltb_lt in Hv.
  rewrite xz_run, xz_by_hand_run. cbv zeta. unfold block_target, drives.
  rewrite allocated_extend, block_prop_extend_first, block_prop_extend_fresh.
  repeat split.
  - apply wire_extend; right. wire_found.
  - apply wire_extend; right. wire_found.
  - apply wire_extend; right. wire_found.
  - intros [d Hd]. apply wire_from_first in Hd; [|done].
    wire_cases. simpl in Hv. lia.
  - intros s Hs. apply wire_into_fresh in Hs; [|done].
    wire_cases; (done || lia).
  - intros s Hs. apply wire_into_fresh in Hs; [|done].
    wire_cases; (done || lia).
  - unfold anonymous, extend; simpl. by rewrite !fmap_app.
Qed.

Lemma xz_splits_and_merges_x_z_witness :
  graph_wf sample_graph = true /\
  point_in sample_graph sample_scaled = true /\
  let '(p, g') := BSL.xz sample_scaled Stage.FRAG sample_graph in
  p = mkPoint 4 "xyOut" /\
  (mkPoint 3 "z", mkPoint 4 "y") ∈ wires g' /\
  ~ drives g' (mkPoint 3 "y").
Proof.
  split; [reflexivity|]. split; [reflexivity|].
  pose proof (xz_splits_and_merges_x_z sample_scaled Stage.FRAG sample_graph
                eq_refl eq_refl) as H.
  destruct (BSL.xz sample_scaled Stage.FRAG sample_graph) as [p g'].
  destruct H as (_ & _ & _ & _ & _ & Hz & Hy & _ & _ & Hp & _).
  repeat split; assumption.
Defined.

(** C5 as stated fails: on the sample graph [xy] returns a point of a
    block that is no merger, so no splitter and merger wired as the
    sentence says exist. *)
Lemma xy_splits_then_merges_counterexample :
  ~ xy_splits_then_merges sample_scaled Stage.FRAG sample_graph.
Proof.
  unfold xy_splits_then_merges.
  destruct (BSL.xy sample_scaled Stage.FRAG sample_graph) as [p g'] eqn:Hrun.
  vm_compute in Hrun. injection Hrun as <- <-.
  intros (sp & mg & _ & Hmerger & _ & _ & _ & Hp).
  injection Hp as <-. vm_compute in Hmerger. discriminate.
Qed.

(** C5, amended. [xy] is built on [splitVec3] alone: it allocates exactly
    one block, the splitter fed by [v], allocates no merger, makes no other
    wire, and returns the splitter's own two-component output [xyOut]. *)
Theorem xy_returns_the_splitter_xyOut v stage g :
  BSL.xy v stage g
  = (let '(sp, g') := BSL.splitVec3 v stage g in (mkPoint sp "xyOut", g')) /\
  let '(p, g') := BSL.xy v stage g in
  block_class <$> allocated g g' = [VectorSplitterBlock] /\
  block_target g' (owner p) = Some (VTarget stage) /\
  made_wires g g' = [(v, mkPoint (owner p) "xyzIn")] /\
  p = mkPoint (length (blocks g)) "xyOut".
Proof.
  split; [reflexivity|].
  rewrite xy_run. unfold block_target. cbn [owner].
  rewrite allocated_extend, made_wires_extend, block_prop_extend_first.
  by repeat split.
Qed.




(** C9 as stated fails: on the sample graph [mulVec] allocates no block
    named Mesh UV scale factor. *)
Lemma mulVec_uses_both_names_counterexample :
  ~ mulVec_uses_both_names sample_position sample_scaled Stage.VERT sample_graph.
Proof.
  unfold mulVec_uses_both_names.
  destruct (BSL.mulVec sample_position sample_scaled Stage.VERT sample_graph)
    as [p g'] eqn:Hrun.
  vm_compute in Hrun. injection Hrun as <- <-.
  intros [Hname _]. vm_compute in Hname.
  apply elem_of_cons in Hname as [Hname|Hname]; [discriminate|].
  by apply elem_of_nil in Hname.
Qed.

(** C9, amended. Whatever its arguments, a call of [mulVec] allocates
    exactly one block, named scaledMeshUV, and a call of [vecFromBabylon]
    allocates exactly one block, named Mesh UV scale factor. *)
Theorem fixed_display_names :
  (forall left right stage g,
   let '(_, g') := BSL.mulVec left right stage g in
   block_name <$> allocated g g' = ["scaledMeshUV"]) /\
  (forall vec g,
   let '(_, g') := BSL.vecFromBabylon vec g in
   block_name <$> allocated g g' = ["Mesh UV scale factor"]).
Proof.
  split.
  - intros left right stage g. rewrite mulVec_run.
    by rewrite allocated_extend.
  - intros vec g. rewrite vecFromBabylon_run.
    by rewrite allocated_extend.
Qed.

(** C10. [outputFragColor] makes one wire, from the caller's socket to the
    rgb input of the fragment output block; no other input of that block,
    the alpha and rgba inputs in particular, is wired. *)
Theorem outputFragColor_wires_rgb_only colorRgb props g :
  graph_wf g = true ->
  let '(b, g') := BSL.outputFragColor colorRgb props g in
  made_wires g g' = [(colorRgb, mkPoint b "rgb")] /\
  (colorRgb, mkPoint b "rgb") ∈ wires g' /\
  (forall s q, (s, mkPoint b q) ∈ wires g' -> s = colorRgb /\ q = "rgb") /\
  ~ wired g' (mkPoint b "a") /\
  ~ wired g' (mkPoint b "rgba").
Proof.
  intros Hwf. rewrite outputFragColor_run. unfold wired.
  rewrite made_wires_extend.
  split; [done|]. split; [|split; [|split]].
  - apply wire_extend; right. wire_found.
  - intros s q Hs. apply wire_into_first in Hs; [|done]. by wire_cases.
  - intros [s Hs]. apply wire_into_first in Hs; [|done]. wire_cases.
  - intros [s Hs]. apply wire_into_first in Hs; [|done]. wire_cases.
Qed.

Lemma outputFragColor_wires_rgb_only_witness :
  graph_wf sample_graph = true /\
  let '(b, g') := BSL.outputFragColor sample_scaled None sample_graph in
  made_wires sample_graph g' = [(sample_scaled, mkPoint b "rgb")] /\
  ~ wired g' (mkPoint b "a") /\
  ~ wired g' (mkPoint b "rgba").
Proof.
  split; [reflexivity|].
  pose proof (outputFragColor_wires_rgb_only sample_scaled None sample_graph
                eq_refl) as H.
  destruct (BSL.outputFragColor sample_scaled None sample_graph) as [b g'].
  destruct H as (Hmade & _ & _ & Ha & Hrgba).
  repeat split; assumption.
Defined.

(** * Further properties of the facade *)

#[local] Arguments extend : simpl never.
#[local] Arguments allocated : simpl never.
#[local] Arguments made_wires : simpl never.

Lemma run_start {A} (m : Build A) g : m g = m (extend g [] []).
Proof. by rewrite extend_nil. Qed.

(** Run the call at the head of the goal. *)
Ltac run_call g :=
  autounfold with facade; rewrite (run_start (bind _ _) g); run_steps.

(** Well-formedness, wire by wire. *)
Lemma graph_wf_Forall g :
  graph_wf g = true
  <-> Forall (fun w : Wire => owner w.1 < length (blocks g)
                              /\ owner w.2 < length (blocks g)) (wires g).
Proof.
  unfold graph_wf. rewrite forallb_forall, Forall_forall. unfold point_in.
  split; intros H w Hw.
  - apply list_elem_of_In, H, andb_prop in Hw as [H1 H2].
    by apply Nat.ltb_lt in H1, H2.
  - apply list_elem_of_In, H in Hw as [H1 H2].
    apply andb_true_intro. by split; apply Nat.ltb_lt.
Qed.

Lemma call_in_Forall g c :
  call_in g c = true
  <-> Forall (fun p => owner p < length (blocks g)) (call_points c).
Proof.
  unfold call_in. rewrite forallb_forall, Forall_forall. unfold point_in.
  split; intros H p Hp.
  - by apply list_elem_of_In, H, Nat.ltb_lt in Hp.
  - by apply list_elem_of_In, H, Nat.ltb_lt in Hp.
Qed.

(** The shape of what any call adds: one block (two for [xz]); every wire
    starts at a socket of the call or at an earlier block of the call, and
    ends at a block of the call; no two wires end at the same point. *)
Lemma call_shape c g :
  exists r fresh made,
    call c g = (r, extend g fresh made)
    /\ length fresh = (if is_xz c then 2 else 1)
    /\ NoDup made.*2
    /\ Forall (fun w : Wire =>
                 (w.1 ∈ call_points c
                  \/ length (blocks g) <= owner w.1 < owner w.2)
                 /\ length (blocks g) <= owner w.2
                    < length (blocks g) + length fresh) made.
Proof.
  destruct c;
    repeat match goal with o : option NodeMaterialConnectionPoint |- _ =>
             destruct o end;
    eexists _, _, _;
    (split; [run_call g; reflexivity|]);
    (split; [reflexivity|]); split.
  all: try (simpl; repeat (apply Forall_cons; split; [split|]);
            try (by apply Forall_nil); simpl; try lia;
            try (left; rewrite !elem_of_cons; auto 12); try (right; lia)).
  all: simpl; repeat (apply NoDup_cons_2; [rewrite ?elem_of_cons, elem_of_nil;
                                          intuition (congruence || lia)|]);
       apply NoDup_nil_2.
Qed.

Lemma call_keeps_wf c g :
  graph_wf g = true -> call_in g c = true -> graph_wf (call c g).2 = true.
Proof.
  rewrite !graph_wf_Forall, call_in_Forall. intros Hwf Hin.
  destruct (call_shape c g) as (r & fresh & made & -> & _ & _ & Hmade).
  cbn [snd]. unfold extend; cbn [blocks wires].
  rewrite length_app. apply Forall_app. split.
  - eapply Forall_impl; [exact Hwf|]. simpl. lia.
  - eapply Forall_impl; [exact Hmade|]. intros [s d]; simpl.
    intros [[Hs|Hs] Hd]; [|lia].
    rewrite Forall_forall in Hin. apply Hin in Hs. lia.
Qed.

(** X1. Well-formedness is an invariant of every program: when each call
    is given sockets of the graph as it is at that point, the graph stays
    well formed. *)
Theorem programs_keep_the_graph_well_formed cs : forall g,
  graph_wf g = true ->
  calls_in g cs = true ->
  graph_wf (run_calls cs g).2 = true.
Proof.
  induction cs as [|c cs IH]; intros g Hwf Hin; [done|].
  rewrite run_calls_cons. cbn [snd].
  simpl in Hin. apply andb_prop in Hin as [Hc Hcs].
  apply IH; [by apply call_keeps_wf | done].
Qed.

Lemma programs_keep_the_graph_well_formed_witness :
  graph_wf sample_graph = true /\
  calls_in sample_graph sample_calls = true /\
  graph_wf (run_calls sample_calls sample_graph).2 = true.
Proof.
  split; [reflexivity|]. split; [reflexivity|].
  apply (programs_keep_the_graph_well_formed sample_calls sample_graph);
    reflexivity.
Defined.

(** X2. A call leaves the wires of the graph in place and ends each wire it
    makes on a block it allocated itself: no input of a block that existed
    before the call gains a wire. *)
Theorem calls_wire_only_into_their_own_blocks c g :
  let '(_, g') := call c g in
  take (length (wires g)) (wires g') = wires g /\
  Forall (fun w : Wire => length (blocks g) <= owner w.2 < length (blocks g'))
         (made_wires g g') /\
  (forall s p, point_in g p = true -> (s, p) ∈ wires g' -> (s, p) ∈ wires g).
Proof.
  destruct (call_shape c g) as (r & fresh & made & -> & _ & _ & Hmade).
  rewrite made_wires_extend, length_blocks_extend.
  split; [|split].
  - unfold extend; cbn [wires]. by rewrite take_app_length.
  - eapply Forall_impl; [exact Hmade|]. by intros w [_ Hd].
  - intros s p Hp Hin. apply Nat.ltb_lt in Hp.
    apply wire_extend in Hin as [Hin|Hin]; [done|].
    rewrite Forall_forall in Hmade. apply Hmade in Hin as [_ Hd].
    simpl in Hd. lia.
Qed.

(** X3. A call allocates exactly one block, except [xz], which allocates
    two. *)
Theorem calls_allocate_one_block_xz_two c g :
  let '(_, g') := call c g in
  length (allocated g g') = (if is_xz c then 2 else 1) /\
  length (blocks g') = length (blocks g) + (if is_xz c then 2 else 1).
Proof.
  destruct (call_shape c g) as (r & fresh & made & -> & Hlen & _).
  by rewrite allocated_extend, length_blocks_extend, Hlen.
Qed.

(** X4. A call makes one wire from each socket it is given, and no other
    wire, except for the two wires [xz] makes from its own splitter. *)
Theorem calls_wire_each_socket_once c g :
  let '(_, g') := call c g in
  (made_wires g g').*1
  ≡ₚ call_points c ++ inner_sources c (length (blocks g)).
Proof.
  destruct c;
    repeat match goal with o : option NodeMaterialConnectionPoint |- _ =>
             destruct o end;
    run_call g; rewrite made_wires_extend, ?Nat.add_0_r; simpl;
    (reflexivity || apply Permutation_swap).
Qed.

(** X5. Every block a call allocates is given a [target], except the block
    of [vecFromBabylon], which is given none. *)
Theorem calls_assign_a_target_except_vecFromBabylon c g :
  let '(_, g') := call c g in
  forallb has_target (allocated g g') = negb (is_vecFromBabylon c).
Proof.
  destruct c; run_call g; rewrite allocated_extend;
    unfold on_connection; simpl; try destruct (direction_input _);
    reflexivity.
Qed.



Lemma graph_ordered_Forall g :
  graph_ordered g = true
  <-> Forall (fun w : Wire => owner w.1 < owner w.2) (wires g).
Proof.
  unfold graph_ordered. rewrite forallb_forall, Forall_forall.
  split; intros H w Hw.
  - by apply list_elem_of_In, H, Nat.ltb_lt in Hw.
  - by apply list_elem_of_In, H, Nat.ltb_lt in Hw.
Qed.

Lemma call_keeps_order c g :
  graph_ordered g = true -> call_in g c = true ->
  graph_ordered (call c g).2 = true.
Proof.
  rewrite !graph_ordered_Forall, call_in_Forall. intros Hord Hin.
  destruct (call_shape c g) as (r & fresh & made & -> & _ & _ & Hmade).
  cbn [snd]. unfold extend; cbn [wires]. apply Forall_app. split; [done|].
  eapply Forall_impl; [exact Hmade|]. intros [s d]; simpl.
  intros [[Hs|Hs] Hd]; [|lia].
  rewrite Forall_forall in Hin. apply Hin in Hs. lia.
Qed.

Lemma run_calls_keep_order cs : forall g,
  graph_ordered g = true -> calls_in g cs = true ->
  graph_ordered (run_calls cs g).2 = true.
Proof.
  induction cs as [|c cs IH]; intros g Hord Hin; [done|].
  rewrite run_calls_cons. cbn [snd].
  simpl in Hin. apply andb_prop in Hin as [Hc Hcs].
  apply IH; [by apply call_keeps_order | done].
Qed.

Lemma feeds_ordered g a b :
  graph_ordered g = true -> feeds g a b -> a < b.
Proof.
  rewrite graph_ordered_Forall, Forall_forall. intros Hord Hfeeds.
  induction Hfeeds as [s d Hw|a b c _ IH1 _ IH2]; [|lia].
  by apply Hord in Hw.
Qed.

(** X7. The facade builds no cycle: in a graph whose wires all run from a
    block to a later one, a program whose calls are given sockets of the
    graph keeps the wires so ordered, and no chain of wires leads from a
    block back to itself. *)
Theorem programs_build_no_cycle cs g :
  graph_ordered g = true ->
  calls_in g cs = true ->
  graph_ordered (run_calls cs g).2 = true /\
  forall b, ~ feeds (run_calls cs g).2 b b.
Proof.
  intros Hord Hin.
  pose proof (run_calls_keep_order cs g Hord Hin) as Hord'.
  split; [done|]. intros b Hb.
  apply (feeds_ordered _ _ _ Hord') in Hb. lia.
Qed.

Lemma programs_build_no_cycle_witness :
  graph_ordered sample_graph = true /\
  calls_in sample_graph sample_calls = true /\
  graph_ordered (run_calls sample_calls sample_graph).2 = true /\
  forall b, ~ feeds (run_calls sample_calls sample_graph).2 b b.
Proof.
  split; [reflexivity|]. split; [reflexivity|].
  apply (programs_build_no_cycle sample_calls sample_graph); reflexivity.
Defined.

Lemma call_keeps_single_wires c g :
  graph_wf g = true -> NoDup (wires g).*2 -> NoDup (wires (call c g).2).*2.
Proof.
  intros Hwf Hnd. apply graph_wf_Forall in Hwf.
  destruct (call_shape c g) as (r & fresh & made & -> & _ & Hmade & Hall).
  cbn [snd]. unfold extend; cbn [wires]. rewrite fmap_app.
  apply NoDup_app. split; [done|]. split; [|done].
  intros p Hold Hnew.
  apply list_elem_of_fmap in Hold as ([s d] & -> & Hold).
  apply list_elem_of_fmap in Hnew as ([s' d'] & Heq & Hnew).
  simpl in Heq. subst d'.
  rewrite Forall_forall in Hwf, Hall.
  apply Hwf in Hold as [_ Hd]. apply Hall in Hnew as [_ Hd'].
  simpl in *. lia.
Qed.

(** X8. No input receives two wires: in a well-formed graph in which every
    point is the destination of at most one wire, this still holds after
    any program whose calls are given sockets of the graph. *)
Theorem programs_wire_each_input_at_most_once cs : forall g,
  graph_wf g = true ->
  calls_in g cs = true ->
  NoDup (wires g).*2 ->
  NoDup (wires (run_calls cs g).2).*2.
Proof.
  induction cs as [|c cs IH]; intros g Hwf Hin Hnd; [done|].
  rewrite run_calls_cons. cbn [snd].
  simpl in Hin. apply andb_prop in Hin as [Hc Hcs].
  apply IH; [by apply call_keeps_wf | done | by apply call_keeps_single_wires].
Qed.

Lemma programs_wire_each_input_at_most_once_witness :
  graph_wf sample_graph = true /\
  calls_in sample_graph sample_calls = true /\
  NoDup (wires sample_graph).*2 /\
  NoDup (wires (run_calls sample_calls sample_graph).2).*2.
Proof.
  assert (Hnd : NoDup (wires sample_graph).*2).
  { vm_compute. repeat (apply NoDup_cons_2;
      [rewrite ?elem_of_cons, elem_of_nil; intuition congruence|]).
    apply NoDup_nil_2. }
  split; [reflexivity|]. split; [reflexivity|]. split; [exact Hnd|].
  apply (programs_wire_each_input_at_most_once sample_calls sample_graph);
    [reflexivity | reflexivity | exact Hnd].
Defined.

(** The sockets of a call that belong to the graph, one hypothesis each. *)
Ltac call_in_facts H :=
  apply call_in_Forall in H; simpl in H;
  repeat match type of H with
         | Forall _ (_ :: _) => apply Forall_cons in H as [? H]
         end;
  clear H.

(** X10. The point a call hands back is left unconnected: in a well-formed
    graph, after a call given sockets of the graph, no wire ends or starts
    at the returned point. *)
Theorem returned_point_is_unconnected c g :
  graph_wf g = true ->
  call_in g c = true ->
  let '(r, g') := call c g in
  forall p, r = RetPoint p -> ~ wired g' p /\ ~ drives g' p.
Proof.
  intros Hwf Hin. unfold wired, drives.
  destruct c;
    repeat match goal with o : option NodeMaterialConnectionPoint |- _ =>
             destruct o end;
    call_in_facts Hin; run_call g; rewrite ?Nat.add_0_r;
    intros p [= <-]; split; intros [q Hq];
    match type of Hq with
    | _ ∈ (wires g ++ ?m)%list =>
        change (wires g ++ m)%list with (wires (extend g [] m)) in Hq
    end;
    (first [apply wire_into_first in Hq | apply wire_into_fresh in Hq
           | apply wire_from_first in Hq | apply wire_from_fresh in Hq];
     [|done]);
    simpl in Hq; wire_cases; simpl in *; lia.
Qed.

Lemma returned_point_is_unconnected_witness :
  graph_wf sample_graph = true /\
  call_in sample_graph (CallXz sample_scaled Stage.FRAG) = true /\
  let '(r, g') := call (CallXz sample_scaled Stage.FRAG) sample_graph in
  forall p, r = RetPoint p -> ~ wired g' p /\ ~ drives g' p.
Proof.
  split; [reflexivity|]. split; [reflexivity|].
  apply (returned_point_is_unconnected (CallXz sample_scaled Stage.FRAG)
           sample_graph); reflexivity.
Defined.

(** Fold the wires of an extended graph back. *)
Ltac refold g :=
  repeat match goal with
         | |- context [(wires g ++ ?m)%list] =>
             change (wires g ++ m)%list with (wires (extend g [] m))
         | H : context [(wires g ++ ?m)%list] |- _ =>
             change (wires g ++ m)%list with (wires (extend g [] m)) in H
         | |- context [(blocks g ++ ?f)%list] =>
             change (blocks g ++ f)%list with (blocks (extend g f []))
         end.

(** Run a facade function at the head of the goal and read the result. *)
Ltac run_facade g :=
  rewrite (run_start (bind _ _) g); run_steps; rewrite ?Nat.add_0_r;
  unfold class_of, block_target, reported_target, block_prop; refold g;
  rewrite ?lookup_extend_first, ?lookup_extend_fresh, ?made_wires_extend,
    ?allocated_extend;
  simpl.

(** X11. [splitVec3] of the output of [vec3]: the merger is allocated
    first and the splitter second; the splitter's three-component input is
    fed by the merger's three-component output and by nothing else, the
    merger's x, y and z ports by the three sockets passed, and the merger's
    w port and the splitter's two-component input stay unwired. *)
Theorem split_of_vec3_wiring a b c stage g :
  graph_wf g = true ->
  let '(sp, g') := split_of_vec3 a b c stage g in
  let mg := length (blocks g) in
  sp = mg + 1 /\
  block_class <$> allocated g g' = [VectorMergerBlock; VectorSplitterBlock] /\
  made_wires g g' = [(a, mkPoint mg "x"); (b, mkPoint mg "y");
                     (c, mkPoint mg "z");
                     (mkPoint mg "xyzOut", mkPoint sp "xyzIn")] /\
  (forall s, (s, mkPoint sp "xyzIn") ∈ wires g' <-> s = mkPoint mg "xyzOut") /\
  ~ wired g' (mkPoint mg "w") /\
  ~ wired g' (mkPoint sp "xyIn").
Proof.
  intros Hwf. unfold split_of_vec3, BSL.vec3, BSL.splitVec3, BSL.merge, wired.
  rewrite (run_start (bind _ _) g); run_steps; rewrite ?Nat.add_0_r.
  rewrite made_wires_extend, allocated_extend.
  split; [done|]. split; [done|]. split; [done|]. split; [|split].
  - intros s. refold g. rewrite wire_into_fresh by done. split.
    + intros Hs. by wire_cases.
    + intros ->. wire_found.
  - intros [s Hs]. refold g. apply wire_into_first in Hs; [|done]. wire_cases.
  - intros [s Hs]. refold g. apply wire_into_fresh in Hs; [|done]. wire_cases.
Qed.

Lemma split_of_vec3_wiring_witness :
  graph_wf sample_graph = true /\
  let '(sp, g') := split_of_vec3 sample_two sample_two sample_two
                     Stage.VERT sample_graph in
  sp = 4 /\ (mkPoint 3 "xyzOut", mkPoint 4 "xyzIn") ∈ wires g'.
Proof.
  split; [reflexivity|].
  pose proof (split_of_vec3_wiring sample_two sample_two
                sample_two Stage.VERT sample_graph eq_refl) as H.
  destruct (split_of_vec3 sample_two sample_two sample_two
              Stage.VERT sample_graph) as [sp g'].
  destruct H as (Hsp & _ & _ & Hin & _).
  split; [exact Hsp|]. subst sp.
  exact (proj2 (Hin (mkPoint 3 "xyzOut")) eq_refl).
Defined.

(** X12. [outputFragColor]: with the options record omitted both
    conversions are off; with a record, each takes the value of its
    field. *)
Theorem outputFragColor_option_defaults colorRgb g :
  (let '(b, g') := BSL.outputFragColor colorRgb None g in
   block_prop g' b "convertToLinearSpace" = Some (VBool false) /\
   block_prop g' b "convertToGammaSpace" = Some (VBool false)) /\
  (forall lin gam : bool,
   let '(b, g') := BSL.outputFragColor colorRgb
                     (Some (mkOutputFragColorProps lin gam)) g in
   block_prop g' b "convertToLinearSpace" = Some (VBool lin) /\
   block_prop g' b "convertToGammaSpace" = Some (VBool gam)).
Proof.
  split; [|intros lin gam]; rewrite outputFragColor_run;
    rewrite !block_prop_extend_first; by simpl.
Qed.

(** X13. [outputVertexPosition] returns a vertex-output block declared for
    the vertex stage, and its one wire runs from the socket passed to the
    block's vector input. *)
Theorem outputVertexPosition_node positionVec4 g :
  let '(b, g') := BSL.outputVertexPosition positionVec4 g in
  b = length (blocks g) /\
  class_of g' b = Some VertexOutputBlock /\
  block_target g' b = Some (VTarget Vertex) /\
  reported_target g' b = Some Vertex /\
  made_wires g g' = [(positionVec4, mkPoint b "vector")].
Proof. unfold BSL.outputVertexPosition. run_facade g. by repeat split. Qed.

(** X14. [perturbNormal] takes no stage: its block is always declared for
    the fragment stage; it wires the five sockets passed to the uv, world
    position, world normal, normal-map colour and strength inputs, in that
    order, and returns the block's output. *)
Theorem perturbNormal_node uv positionWorldVec3 normalWorldVec3 normalTexture
    bumpStrengthFloat g :
  let '(p, g') := BSL.perturbNormal uv positionWorldVec3 normalWorldVec3
                    normalTexture bumpStrengthFloat g in
  let b := length (blocks g) in
  p = mkPoint b "output" /\
  class_of g' b = Some PerturbNormalBlock /\
  block_target g' b = Some (VTarget Fragment) /\
  reported_target g' b = Some Fragment /\
  made_wires g g' = [(uv, mkPoint b "uv");
                     (positionWorldVec3, mkPoint b "worldPosition");
                     (normalWorldVec3, mkPoint b "worldNormal");
                     (normalTexture, mkPoint b "normalMapColor");
                     (bumpStrengthFloat, mkPoint b "strength")].
Proof. unfold BSL.perturbNormal. run_facade g. by repeat split. Qed.

(** X15. The three float sources store the number passed as the value of
    a new input block and make no wire.  Each assigns both stages to the
    target; the host, which constructs an input block for the vertex stage,
    ignores the assignment, and the block reports the vertex stage.  Only
    [constFloat] marks the block constant and only [uniformFloat] sets its
    matrix mode (to 0); [float] names its block float, the other two use the
    name passed. *)
Theorem float_sources name value g :
  (let '(p, g') := BSL.float value g in
   p = mkPoint (length (blocks g)) "output" /\
   class_of g' (owner p) = Some InputBlock /\
   block_name <$> blocks g' !! owner p = Some "float" /\
   block_prop g' (owner p) "value" = Some (VNum value) /\
   block_prop g' (owner p) "isConstant" = None /\
   block_prop g' (owner p) "matrixMode" = None /\
   block_target g' (owner p) = Some (VTarget VertexAndFragment) /\
   reported_target g' (owner p) = Some Vertex /\
   made_wires g g' = []) /\
  (let '(p, g') := BSL.constFloat name value g in
   p = mkPoint (length (blocks g)) "output" /\
   class_of g' (owner p) = Some InputBlock /\
   block_name <$> blocks g' !! owner p = Some name /\
   block_prop g' (owner p) "value" = Some (VNum value) /\
   block_prop g' (owner p) "isConstant" = Some (VBool true) /\
   block_prop g' (owner p) "matrixMode" = None /\
   block_target g' (owner p) = Some (VTarget VertexAndFragment) /\
   reported_target g' (owner p) = Some Vertex /\
   made_wires g g' = []) /\
  (let '(p, g') := BSL.uniformFloat name value g in
   p = mkPoint (length (blocks g)) "output" /\
   class_of g' (owner p) = Some InputBlock /\
   block_name <$> blocks g' !! owner p = Some name /\
   block_prop g' (owner p) "value" = Some (VNum value) /\
   block_prop g' (owner p) "isConstant" = None /\
   block_prop g' (owner p) "matrixMode" = Some (VNum 0%float) /\
   block_target g' (owner p) = Some (VTarget VertexAndFragment) /\
   reported_target g' (owner p) = Some Vertex /\
   made_wires g g' = []).
Proof.
  split; [|split].
  - unfold BSL.float. run_facade g. by repeat split.
  - unfold BSL.constFloat. run_facade g. by repeat split.
  - unfold BSL.uniformFloat. run_facade g. by repeat split.
Qed.

(** X16. The four uniform sources each yield the output of a new input
    block set to the system value of their name: camera position, view,
    view-projection and world.  Each assigns both stages to the target; the
    host ignores the assignment and the block reports the vertex stage it
    was constructed with. *)
Theorem uniform_sources_system_values g :
  (let '(p, g') := BSL.uniformCameraPosition g in
   p = mkPoint (length (blocks g)) "output" /\
   class_of g' (owner p) = Some InputBlock /\
   block_name <$> blocks g' !! owner p = Some "cameraPosition" /\
   block_prop g' (owner p) "systemValue" = Some (VSystemValue CameraPosition) /\
   block_target g' (owner p) = Some (VTarget VertexAndFragment) /\
   reported_target g' (owner p) = Some Vertex) /\
  (let '(p, g') := BSL.uniformView g in
   p = mkPoint (length (blocks g)) "output" /\
   class_of g' (owner p) = Some InputBlock /\
   block_name <$> blocks g' !! owner p = Some "view" /\
   block_prop g' (owner p) "systemValue" = Some (VSystemValue View) /\
   block_target g' (owner p) = Some (VTarget VertexAndFragment) /\
   reported_target g' (owner p) = Some Vertex) /\
  (let '(p, g') := BSL.uniformViewProjection g in
   p = mkPoint (length (blocks g)) "output" /\
   class_of g' (owner p) = Some InputBlock /\
   block_name <$> blocks g' !! owner p = Some "ViewProjection" /\
   block_prop g' (owner p) "systemValue" = Some (VSystemValue ViewProjection) /\
   block_target g' (owner p) = Some (VTarget VertexAndFragment) /\
   reported_target g' (owner p) = Some Vertex) /\
  (let '(p, g') := BSL.uniformWorld g in
   p = mkPoint (length (blocks g)) "output" /\
   class_of g' (owner p) = Some InputBlock /\
   block_name <$> blocks g' !! owner p = Some "world" /\
   block_prop g' (owner p) "systemValue" = Some (VSystemValue World) /\
   block_target g' (owner p) = Some (VTarget VertexAndFragment) /\
   reported_target g' (owner p) = Some Vertex).
Proof.
  split; [|split; [|split]].
  - unfold BSL.uniformCameraPosition, setAsSystemValue. run_facade g.
    by repeat split.
  - unfold BSL.uniformView, setAsSystemValue. run_facade g. by repeat split.
  - unfold BSL.uniformViewProjection, setAsSystemValue. run_facade g.
    by repeat split.
  - unfold BSL.uniformWorld, setAsSystemValue. run_facade g. by repeat split.
Qed.

(** X17. [fract] yields the output of a trigonometry block whose operation
    is Fract, fed by the socket passed; [mul] yields the output of a scale
    block whose input and factor are fed by the first and the second socket
    passed; both blocks are declared for the stage passed. *)
Theorem fract_and_mul_nodes input factor stage g :
  (let '(p, g') := BSL.fract input stage g in
   p = mkPoint (length (blocks g)) "output" /\
   class_of g' (owner p) = Some TrigonometryBlock /\
   block_prop g' (owner p) "operation" = Some (VOperation Fract) /\
   block_target g' (owner p) = Some (VTarget stage) /\
   reported_target g' (owner p) = Some stage /\
   made_wires g g' = [(input, mkPoint (owner p) "input")]) /\
  (let '(p, g') := BSL.mul input factor stage g in
   p = mkPoint (length (blocks g)) "output" /\
   class_of g' (owner p) = Some ScaleBlock /\
   block_target g' (owner p) = Some (VTarget stage) /\
   reported_target g' (owner p) = Some stage /\
   made_wires g g' = [(input, mkPoint (owner p) "input");
                      (factor, mkPoint (owner p) "factor")]).
Proof.
  split.
  - unfold BSL.fract. run_facade g. by destruct stage.
  - unfold BSL.mul. run_facade g. by destruct stage.
Qed.

(** X18. [splitVec2] and [splitVec3] allocate the same splitter, up to its
    display name, and differ in the input they feed: the two-component input
    for [splitVec2], the three-component input for [splitVec3]; in a
    well-formed graph the other of the two inputs stays unwired. *)
Theorem splitVec2_and_splitVec3 v stage g :
  graph_wf g = true ->
  let '(s2, g2) := BSL.splitVec2 v stage g in
  let '(s3, g3) := BSL.splitVec3 v stage g in
  s2 = s3 /\
  blocks (anonymous g2) = blocks (anonymous g3) /\
  class_of g2 s2 = Some VectorSplitterBlock /\
  made_wires g g2 = [(v, mkPoint s2 "xyIn")] /\
  made_wires g g3 = [(v, mkPoint s3 "xyzIn")] /\
  ~ wired g2 (mkPoint s2 "xyzIn") /\
  ~ wired g3 (mkPoint s3 "xyIn").
Proof.
  intros Hwf. unfold BSL.splitVec2, BSL.splitVec3, wired, anonymous.
  rewrite !(run_start (bind _ _) g); run_steps; rewrite ?Nat.add_0_r.
  rewrite !made_wires_extend. unfold class_of. cbn [blocks].
  rewrite lookup_extend_first.
  split; [done|]. split; [by rewrite !fmap_app|].
  split; [done|]. split; [done|]. split; [done|]. split.
  - intros [s Hs]. refold g. apply wire_into_first in Hs; [|done]. wire_cases.
  - intros [s Hs]. refold g. apply wire_into_first in Hs; [|done]. wire_cases.
Qed.

Lemma splitVec2_and_splitVec3_witness :
  graph_wf sample_graph = true /\
  let '(s2, g2) := BSL.splitVec2 sample_scaled Stage.VERT sample_graph in
  let '(s3, g3) := BSL.splitVec3 sample_scaled Stage.VERT sample_graph in
  s2 = s3 /\ blocks (anonymous g2) = blocks (anonymous g3).
Proof.
  split; [reflexivity|].
  pose proof (splitVec2_and_splitVec3 sample_scaled Stage.VERT sample_graph
                eq_refl) as H.
  destruct (BSL.splitVec2 sample_scaled Stage.VERT sample_graph) as [s2 g2].
  destruct (BSL.splitVec3 sample_scaled Stage.VERT sample_graph) as [s3 g3].
  destruct H as (H1 & H2 & _). by split.
Defined.

(** X19. [sampleTexture] hands back the texture block itself, holding the
    texture passed; its one wire runs from the uv socket passed to the
    block's uv input. *)
Theorem sampleTexture_node texture uv props g :
  let '(b, g') := BSL.sampleTexture texture uv props g in
  b = length (blocks g) /\
  class_of g' b = Some TextureBlock /\
  block_prop g' b "texture" = Some (VTexture texture) /\
  made_wires g g' = [(uv, mkPoint b "uv")].
Proof.
  rewrite sampleTexture_run. unfold class_of.
  rewrite !block_prop_extend_first, lookup_extend_first, made_wires_extend.
  by repeat split.
Qed.

(** X20. [vec2], [vec3] and [vec4] hand back the two-, three- and
    four-component output of a merger named Merge and wire exactly the
    sockets passed, to the ports x, y, z, w in that order. *)
Theorem vec_constructors x y z w stage g :
  (let '(p, g') := BSL.vec2 x y stage g in
   p = mkPoint (length (blocks g)) "xyOut" /\
   class_of g' (owner p) = Some VectorMergerBlock /\
   made_wires g g' = [(x, mkPoint (owner p) "x"); (y, mkPoint (owner p) "y")]) /\
  (let '(p, g') := BSL.vec3 x y z stage g in
   p = mkPoint (length (blocks g)) "xyzOut" /\
   class_of g' (owner p) = Some VectorMergerBlock /\
   made_wires g g' = [(x, mkPoint (owner p) "x"); (y, mkPoint (owner p) "y");
                      (z, mkPoint (owner p) "z")]) /\
  (let '(p, g') := BSL.vec4 x y z w stage g in
   p = mkPoint (length (blocks g)) "xyzw" /\
   class_of g' (owner p) = Some VectorMergerBlock /\
   made_wires g g' = [(x, mkPoint (owner p) "x"); (y, mkPoint (owner p) "y");
                      (z, mkPoint (owner p) "z"); (w, mkPoint (owner p) "w")]).
Proof.
  split; [|split].
  - unfold BSL.vec2, BSL.merge. run_facade g. by repeat split.
  - unfold BSL.vec3, BSL.merge. run_facade g. by repeat split.
  - unfold BSL.vec4, BSL.merge. run_facade g. by repeat split.
Qed.

(** X21. The Readme's example, completed: from any graph it allocates an
    input block, a texture block and a fragment output, in that order, with
    two wires, attribute to texture uv and texture rgb to the output's rgb;
    no conversion is switched on in either block. *)
Theorem textured_fragment_program texture g :
  let '(out, g') := textured_fragment texture g in
  let uv := length (blocks g) in
  out = uv + 2 /\
  block_class <$> allocated g g'
  = [InputBlock; TextureBlock; FragmentOutputBlock] /\
  made_wires g g' = [(mkPoint uv "output", mkPoint (uv + 1) "uv");
                     (mkPoint (uv + 1) "rgb", mkPoint out "rgb")] /\
  block_prop g' (uv + 1) "convertToLinearSpace" = Some (VBool false) /\
  block_prop g' (uv + 1) "convertToGammaSpace" = Some (VBool false) /\
  block_prop g' out "convertToLinearSpace" = Some (VBool false) /\
  block_prop g' out "convertToGammaSpace" = Some (VBool false).
Proof.
  unfold textured_fragment, BSL.vertexAttribute, BSL.sampleTexture,
    BSL.outputFragColor, setAsAttribute.
  rewrite (run_start (bind _ _) g); run_steps; rewrite ?Nat.add_0_r.
  rewrite made_wires_extend, allocated_extend, !block_prop_extend_fresh.
  by repeat split.
Qed.
